(** * Entity coordinator of kjh123/core: pkg/entities/manager.go

    A shallow embedding of [EntityManager] and of [uuid].  Every call the
    manager makes on a collaborator (dapr state store, etcd, search
    client, runtime manager, the [statem] codec, crypto/rand) is a node
    of a small program tree; a handler answers the calls and threads its
    own state, and running a program yields the list of calls with
    their answers, the outcome and the final handler state.

    Log statements are left out: they neither fail nor steer the control
    flow.  The one exception is line 150, whose argument [base.Mappers]
    dereferences a pointer that may be nil. *)

From Stdlib.Strings Require Import Byte.
From Stdlib Require Import NArith Ascii.
From stdpp Require Import base option list strings gmap.

(** ** Errors *)

(** Modelled from the spec: the sentinels [ErrEntityNotFound] (NotFound)
    and [ErrEntityAreadyExisted] (AlreadyExists) are package variables
    declared outside manager.go.  [ErrOpaque] stands for an error
    produced by a collaborator, [Wrap] for the value built by
    [errors.Wrap] around a non-nil cause.  A Go [error] that may be nil
    is an [option error]. *)
Inductive error : Type :=
| ErrEntityNotFound
| ErrEntityAreadyExisted
| ErrOpaque (msg : string)
| Wrap (cause : error) (msg : string).

(** [err == target] on error values.  Go compares them by identity: a
    sentinel is identical to itself, a value built by [errors.Wrap] is
    fresh, and only the sentinels are ever used as a target. *)
Definition same_error (a b : error) : bool :=
  match a, b with
  | ErrEntityNotFound, ErrEntityNotFound => true
  | ErrEntityAreadyExisted, ErrEntityAreadyExisted => true
  | _, _ => false
  end.

(** [errors.Wrap(err, msg)]: nil stays nil. *)
Definition errors_Wrap (err : option error) (msg : string) : option error :=
  match err with
  | None => None
  | Some e => Some (Wrap e msg)
  end.

(** The chain walked by [errors.Is]: the error itself, then what
    [Unwrap] gives. *)
Fixpoint error_chain_has (e target : error) : bool :=
  same_error e target ||
  match e with
  | Wrap c _ => error_chain_has c target
  | _ => false
  end.

(** [errors.Is(err, target)] for a non-nil target. *)
Definition errors_Is (err : option error) (target : error) : bool :=
  match err with
  | None => false
  | Some e => error_chain_has e target
  end.

(** ** Data *)

Definition bytes := list byte.

(** Modelled from the spec: [statem.Mapper] and [statem.Base] are declared
    outside manager.go; the fields are those the manager reads ([ID],
    [Type], [Mappers], [Name], [TQLString]) and the opaque payloads of
    the data model. *)
Record Mapper : Type := { Name : string; TQLString : string }.

Record Base : Type := {
  ID : string;
  Type_ : string;
  Properties : bytes;
  Configs : bytes;
  Mappers : list Mapper
}.

Definition set_ID (id : string) (b : Base) : Base :=
  {| ID := id; Type_ := Type_ b; Properties := Properties b;
     Configs := Configs b; Mappers := Mappers b |}.

(** [dapr.StateItem], as far as the manager looks at it. *)
Record StateItem : Type := { Key : string; Value : bytes }.

(** [statem.PropertyMessage] inside the [statem.MessageContext] sent to
    the runtime; the headers are empty. *)
Record PropertyMessage : Type := { StateID : string; Operator : string }.

(** Modelled from the spec: [pb.PatchData], one patch operation; it is
    declared outside manager.go and passed through to the runtime
    untouched. *)
Record PatchData : Type := {
  PatchPath : string; PatchOperator : string; PatchValue : bytes
}.

(** A [( *statem.Base, error)] pair as Go returns it. *)
Definition Result : Type := option Base * option error.

Definition EntityStateName : string := "core-state".
Definition SubscriptionPrefix : string := "core.subsc.".
Definition TQLEtcdPrefix : string := "core.tql.".

(** ** Collaborator calls *)

Inductive Call : Type :=
| RandRead (n : nat)
| GetState (store key : string)
| SaveState (store key : string) (data : bytes)
| DeleteState (store key : string)
| EtcdPut (key val : string)
| EtcdDelete (key : string) (withPrefix : bool)
| SearchDeleteByID (id : string)
| SendMsg (msg : PropertyMessage)
| DeleteStateMarchin (en : Base)
| RtSetProperties (en : Base)
| RtPatchEntity (en : Base) (patchData : list PatchData)
| RtSetConfigs (en : Base)
| RtAppendMapper (en : Base)
| RtRemoveMapper (en : Base)
| EncodeBase (b : Base)
| DecodeBase (data : bytes).

(** What each call hands back.  [RandRead] gives the bytes the source
    delivered and its error. *)
Definition Resp (c : Call) : Type :=
  match c with
  | RandRead _ => (bytes * option error)%type
  | GetState _ _ => (option StateItem * option error)%type
  | SendMsg _ => unit
  | DeleteStateMarchin _ => (option Base * option error)%type
  | EncodeBase _ => (bytes * option error)%type
  | DecodeBase _ => (option Base * option error)%type
  | _ => option error
  end.

Inductive Event : Type := Ev (c : Call) (r : Resp c).

Definition ev_call (e : Event) : Call := match e with Ev c _ => c end.

(** ** Programs *)

Inductive Prog (A : Type) : Type :=
| Ret (a : A)
| Panic
| Do (c : Call) (k : Resp c -> Prog A).

Arguments Ret {A} a.
Arguments Panic {A}.
Arguments Do {A} c k.

Fixpoint bind {A B : Type} (p : Prog A) (f : A -> Prog B) : Prog B :=
  match p with
  | Ret a => f a
  | Panic => Panic
  | Do c k => Do c (fun r => bind (k r) f)
  end.

Definition call (c : Call) : Prog (Resp c) := Do c Ret.

Declare Scope prog_scope.
Delimit Scope prog_scope with prog.
Notation "x <- p ;; q" := (bind p (fun x => q))
  (at level 100, p at next level, right associativity) : prog_scope.
Open Scope prog_scope.

Inductive Outcome (A : Type) : Type :=
| Returned (a : A)
| Panicked.

Arguments Returned {A} a.
Arguments Panicked {A}.

(** A handler answers every call and moves its own state. *)
Definition Handler (S : Type) : Type := forall c : Call, S -> S * Resp c.

Fixpoint run {S A : Type} (h : Handler S) (p : Prog A) (s : S)
  : list Event * Outcome A * S :=
  match p with
  | Ret a => ([], Returned a, s)
  | Panic => ([], Panicked, s)
  | Do c k =>
      let '(s1, r) := h c s in
      let '(tr, out, s2) := run h (k r) s1 in
      (Ev c r :: tr, out, s2)
  end.

Definition trace_of {S A : Type} (x : list Event * Outcome A * S) : list Event :=
  x.1.1.
Definition outcome_of {S A : Type} (x : list Event * Outcome A * S) : Outcome A :=
  x.1.2.

(** ** uuid (lines 264-274) *)

Definition byte_of_N (n : N) : byte :=
  default x00 (Byte.of_N (n mod 256)).

(** [b &^ m | v] on a [byte]. *)
Definition clear_set (b : byte) (m v : N) : byte :=
  byte_of_N (N.lor (N.ldiff (Byte.to_N b) m) v).

(** What [Read] leaves in the buffer: the delivered bytes over its
    front. *)
Fixpoint fill (buf src : bytes) : bytes :=
  match buf, src with
  | _ :: buf', x :: src' => x :: fill buf' src'
  | _, _ => buf
  end.

Definition hex_digit (n : N) : ascii :=
  match n with
  | 0 => "0" | 1 => "1" | 2 => "2" | 3 => "3" | 4 => "4" | 5 => "5"
  | 6 => "6" | 7 => "7" | 8 => "8" | 9 => "9" | 10 => "a" | 11 => "b"
  | 12 => "c" | 13 => "d" | 14 => "e" | _ => "f"
  end%N%char.

(** [%x] on a byte slice: two lower-case digits per byte, high nibble
    first. *)
Fixpoint hex (bs : bytes) : string :=
  match bs with
  | [] => ""
  | b :: bs' =>
      String (hex_digit (Byte.to_N b / 16))
        (String (hex_digit (Byte.to_N b mod 16)) (hex bs'))
  end.

(** [u[i] = f(u[i])]; out of range Go panics. *)
Definition update_at (i : nat) (f : byte -> byte) (u : bytes) : option bytes :=
  match u !! i with
  | Some b => Some (<[i := f b]> u)
  | None => None
  end.

(** [u[lo:hi]]. *)
Definition slice (lo hi : nat) (u : bytes) : bytes := take (hi - lo) (drop lo u).

Definition uuid_Sprintf (u : bytes) : string :=
  hex (slice 0 4 u) +:+ "-" +:+ hex (slice 4 6 u) +:+ "-" +:+ hex (slice 6 8 u)
    +:+ "-" +:+ hex (slice 8 10 u) +:+ "-" +:+ hex (drop 10 u).

Definition uuid : Prog string :=
  let buf := replicate 16 x00 in
  r <- call (RandRead (length buf)) ;;
  let '(src, err) := r in
  match err with
  | Some _ => Ret ""
  | None =>
      match update_at 8 (fun b => clear_set b 0xc0 0x80) (fill buf src) with
      | None => Panic
      | Some u =>
          match update_at 6 (fun b => clear_set b 0xf0 0x40) u with
          | None => Panic
          | Some u => Ret (uuid_Sprintf u)
          end
      end
  end.

(** ** getEntityFromState (lines 169-181) *)

Definition getEntityFromState (en : Base) : Prog Result :=
  r <- call (GetState EntityStateName (ID en)) ;;
  let '(data, err) := r in
  match err with
  | Some _ => Ret (None, errors_Wrap err "get entity properties")
  | None =>
      match data with
      | None => Ret (None, Some ErrEntityNotFound)
      | Some item =>
          if Nat.eqb (length (Value item)) 0 then Ret (None, Some ErrEntityNotFound)
          else
            r <- call (DecodeBase (Value item)) ;;
            let '(base, err) := r in
            match err with
            | Some _ => Ret (None, errors_Wrap err "get entity properties")
            | None => Ret (base, None)
            end
      end
  end.

(** ** CreateEntity (lines 94-127) *)

(** Lines 99-126: the existence probe, the encoding, the write and the
    notification, for a snapshot whose [ID] is settled. *)
Definition createWithID (base : Base) : Prog Result :=
  r <- getEntityFromState base ;;
  let '(_, err) := r in
  if errors_Is err ErrEntityNotFound then
    let err := match err with
               | None => Some ErrEntityAreadyExisted
               | Some _ => err
               end in
    Ret (None, err)
  else
    r <- call (EncodeBase base) ;;
    let '(data, err) := r in
    match err with
    | Some _ => Ret (None, errors_Wrap err "create entity")
    | None =>
        err <- call (SaveState EntityStateName (ID base) data) ;;
        match err with
        | Some _ => Ret (None, errors_Wrap err "create entity")
        | None =>
            _ <- call (SendMsg {| StateID := ID base; Operator := "replace" |}) ;;
            Ret (Some base, None)
        end
    end.

(** Lines 95-97 assign the identifier in place, then the rest runs on the
    same snapshot. *)
Definition CreateEntity (base : Base) : Prog Result :=
  base <- (if String.eqb (ID base) "" then id <- uuid ;; Ret (set_ID id base)
           else Ret base) ;;
  createWithID base.

(** ** GetProperties (lines 161-167) *)

Definition GetProperties (en : Base) : Prog Result :=
  r <- getEntityFromState en ;;
  let '(base, err) := r in
  Ret (base, errors_Wrap err "entity GetProperties").

(** ** SetProperties, PatchEntity, SetConfigs (lines 184-210) *)

Definition SetProperties (en : Base) : Prog Result :=
  err <- call (RtSetProperties en) ;;
  match err with
  | Some _ => Ret (None, errors_Wrap err "set entity properties")
  | None =>
      r <- getEntityFromState en ;;
      let '(base, err) := r in
      Ret (base, errors_Wrap err "set entity properties")
  end.

Definition PatchEntity (en : Base) (patchData : list PatchData) : Prog Result :=
  err <- call (RtPatchEntity en patchData) ;;
  match err with
  | Some _ => Ret (None, errors_Wrap err "patch entity properties")
  | None =>
      r <- getEntityFromState en ;;
      let '(base, err) := r in
      Ret (base, errors_Wrap err "patch entity properties")
  end.

Definition SetConfigs (en : Base) : Prog Result :=
  err <- call (RtSetConfigs en) ;;
  match err with
  | Some _ => Ret (None, errors_Wrap err "set entity configs")
  | None =>
      r <- getEntityFromState en ;;
      let '(base, err) := r in
      Ret (base, errors_Wrap err "set entity configs")
  end.

(** ** AppendMapper, RemoveMapper (lines 213-261) *)

(** The etcd key of a mapper: [TQLEtcdPrefix+en.ID+mm.Name]. *)
Definition mapperKey (en : Base) (mm : Mapper) : string :=
  TQLEtcdPrefix +:+ ID en +:+ Name mm.

(** The [for _, mm := range en.Mappers] loop of AppendMapper; [Some err]
    is the early return inside the loop. *)
Fixpoint putMappers (en : Base) (ms : list Mapper) : Prog (option error) :=
  match ms with
  | [] => Ret None
  | mm :: ms' =>
      err <- call (EtcdPut (TQLEtcdPrefix +:+ ID en +:+ Name mm) (TQLString mm)) ;;
      match err with
      | Some _ => Ret err
      | None => putMappers en ms'
      end
  end.

(** The loop of RemoveMapper. *)
Fixpoint delMappers (en : Base) (ms : list Mapper) : Prog (option error) :=
  match ms with
  | [] => Ret None
  | mm :: ms' =>
      err <- call (EtcdDelete (TQLEtcdPrefix +:+ ID en +:+ Name mm) false) ;;
      match err with
      | Some _ => Ret err
      | None => delMappers en ms'
      end
  end.

Definition AppendMapper (en : Base) : Prog Result :=
  r <- call (GetState EntityStateName (ID en)) ;;
  let '(_, err) := r in
  match err with
  | Some _ => Ret (None, errors_Wrap err "get state")
  | None =>
      err <- putMappers en (Mappers en) ;;
      match err with
      | Some _ => Ret (None, errors_Wrap err "append mapper")
      | None =>
          err <- call (RtAppendMapper en) ;;
          match err with
          | Some _ => Ret (None, errors_Wrap err "append mapper")
          | None =>
              r <- getEntityFromState en ;;
              let '(base, err) := r in
              Ret (base, errors_Wrap err "append mapper")
          end
      end
  end.

Definition RemoveMapper (en : Base) : Prog Result :=
  r <- call (GetState EntityStateName (ID en)) ;;
  let '(_, err) := r in
  match err with
  | Some _ => Ret (None, errors_Wrap err "get state")
  | None =>
      err <- delMappers en (Mappers en) ;;
      match err with
      | Some _ => Ret (None, errors_Wrap err "append mapper")
      | None =>
          err <- call (RtRemoveMapper en) ;;
          match err with
          | Some _ => Ret (None, errors_Wrap err "remove mapper")
          | None =>
              r <- getEntityFromState en ;;
              let '(base, err) := r in
              Ret (base, errors_Wrap err "remove mapper")
          end
      end
  end.

(** ** DeleteEntity (lines 130-158) *)

Section Delete.

(** [util.FormatMapper] builds the etcd key from the entity type, the
    entity id and a name; it is declared outside manager.go. *)
Variable FormatMapper : string -> string -> string -> string.

Definition DeleteEntity (en : Base) : Prog Result :=
  r <- call (DeleteStateMarchin en) ;;
  let '(base, err) := r in
  match err with
  | Some _ => Ret (None, errors_Wrap err "delete entity from runtime")
  | None =>
      err <- call (SearchDeleteByID (ID en)) ;;
      match err with
      | Some _ => Ret (None, errors_Wrap err "delete entity from es state")
      | None =>
          err <- call (DeleteState EntityStateName (ID en)) ;;
          match err with
          | Some _ => Ret (None, errors_Wrap err "delete entity from state")
          | None =>
              err <- call (EtcdDelete
                             (FormatMapper (Type_ en) (ID en) "subscription")
                             true) ;;
              match err with
              | Some _ =>
                  (* line 150 reads base.Mappers for the log entry *)
                  match base with
                  | None => Panic
                  | Some _ => Ret (None, errors_Wrap err "delete entity")
                  end
              | None => Ret (base, None)
              end
          end
      end
  end.

(** The eight operations of the manager's API. *)
Inductive Operation : Type :=
| OpCreate (base : Base)
| OpDelete (en : Base)
| OpGetProperties (en : Base)
| OpSetProperties (en : Base)
| OpSetConfigs (en : Base)
| OpPatch (en : Base) (patchData : list PatchData)
| OpAppendMapper (en : Base)
| OpRemoveMapper (en : Base).

Definition perform (op : Operation) : Prog Result :=
  match op with
  | OpCreate base => CreateEntity base
  | OpDelete en => DeleteEntity en
  | OpGetProperties en => GetProperties en
  | OpSetProperties en => SetProperties en
  | OpSetConfigs en => SetConfigs en
  | OpPatch en patchData => PatchEntity en patchData
  | OpAppendMapper en => AppendMapper en
  | OpRemoveMapper en => RemoveMapper en
  end.

End Delete.

(** ** Reading traces and outcomes *)

(** A trace put in front of a run. *)
Definition prepend {S A : Type} (tr : list Event)
    (x : list Event * Outcome A * S) : list Event * Outcome A * S :=
  (tr ++ x.1.1, x.1.2, x.2).

(** The result with its error wrapped, as in [return base, errors.Wrap(err, msg)]. *)
Definition wrap_result (msg : string) (r : Result) : Result :=
  (r.1, errors_Wrap r.2 msg).

Definition is_store_write (c : Call) : bool :=
  match c with
  | SaveState _ _ _ | DeleteState _ _ => true
  | _ => false
  end.

Definition is_runtime_call (c : Call) : bool :=
  match c with
  | SendMsg _ | DeleteStateMarchin _ | RtSetProperties _ | RtPatchEntity _ _
  | RtSetConfigs _ | RtAppendMapper _ | RtRemoveMapper _ => true
  | _ => false
  end.

Definition is_decode (c : Call) : bool :=
  match c with
  | DecodeBase _ => true
  | _ => false
  end.

(** No call of the trace is of the given kind. *)
Definition never (kind : Call -> bool) (tr : list Event) : bool :=
  forallb (fun e => negb (kind (ev_call e))) tr.

(** The item of a successful [GetState] holds nothing: a nil item or a
    value of length zero (line 174). *)
Definition empty_item (data : option StateItem) : bool :=
  match data with
  | None => true
  | Some item => Nat.eqb (length (Value item)) 0
  end.

(** The event is a [GetState] that returned no error and an empty item. *)
Definition is_empty_read (e : Event) : bool :=
  match e with
  | Ev c r =>
      match c return Resp c -> bool with
      | GetState _ _ => fun r =>
          match r.2 with
          | None => empty_item r.1
          | Some _ => false
          end
      | _ => fun _ => false
      end r
  end.

(** The answer of a snapshot-returning collaborator is not nil with nil. *)
Definition nil_nil (r : option Base * option error) : bool :=
  match r with
  | (None, None) => true
  | _ => false
  end.

Definition keeps_convention (e : Event) : bool :=
  match e with
  | Ev c r =>
      match c return Resp c -> bool with
      | DeleteStateMarchin _ => fun r => negb (nil_nil r)
      | DecodeBase _ => fun r => negb (nil_nil r)
      | _ => fun _ => true
      end r
  end.

(** The event is a registry call that came back with an error. *)
Definition registry_refused (e : Event) : bool :=
  match e with
  | Ev c r =>
      match c return Resp c -> bool with
      | EtcdPut _ _ => fun r => bool_decide (is_Some r)
      | EtcdDelete _ _ => fun r => bool_decide (is_Some r)
      | _ => fun _ => false
      end r
  end.

(** Exactly one of snapshot and error is nil. *)
Definition exclusive (o : Outcome Result) : Prop :=
  match o with
  | Returned (Some _, None) => True
  | Returned (None, Some _) => True
  | _ => False
  end.

(** ** The shape of a generated identifier *)

Fixpoint digit_index (c : ascii) (digits : string) (n : N) : option N :=
  match digits with
  | EmptyString => None
  | String d digits' =>
      if Ascii.eqb c d then Some n else digit_index c digits' (N.succ n)
  end.

(** The value of a lower-case hexadecimal digit. *)
Definition hex_value (c : ascii) : option N :=
  digit_index c "0123456789abcdef" 0.

Definition is_hex_digit (c : ascii) : bool :=
  match hex_value c with
  | Some _ => true
  | None => false
  end.

Fixpoint all_hex (s : string) : bool :=
  match s with
  | EmptyString => true
  | String c s' => is_hex_digit c && all_hex s'
  end.

(** Five groups of 8-4-4-4-12 hexadecimal digits between hyphens; the
    third starts with the version digit 4, the fourth with a digit whose
    two high bits are 10. *)
Definition uuid_format (s : string) : Prop :=
  exists (g1 g2 g3 g4 g5 : string) (v : N),
    s = g1 +:+ "-" +:+ g2 +:+ "-" +:+ g3 +:+ "-" +:+ g4 +:+ "-" +:+ g5 /\
    map String.length [g1; g2; g3; g4; g5] = [8; 4; 4; 4; 12] /\
    forallb all_hex [g1; g2; g3; g4; g5] = true /\
    String.get 0 g3 = Some "4"%char /\
    (String.get 0 g4 ≫= hex_value) = Some v /\ N.shiftr v 2 = 2%N.

(** ** Scripted collaborators

    A stateless handler: every call is answered from a table. *)

Record Script : Type := {
  sc_rand : bytes * option error;
  sc_get : string -> option StateItem * option error;
  sc_encode : Base -> bytes * option error;
  sc_decode : bytes -> option Base * option error;
  sc_teardown : Base -> option Base * option error;
  sc_fail : Call -> option error
}.

Definition scripted (sc : Script) : Handler unit :=
  fun c s =>
    (s,
     match c return Resp c with
     | RandRead _ => sc_rand sc
     | GetState _ key => sc_get sc key
     | SaveState a b d => sc_fail sc (SaveState a b d)
     | DeleteState a b => sc_fail sc (DeleteState a b)
     | EtcdPut k v => sc_fail sc (EtcdPut k v)
     | EtcdDelete k p => sc_fail sc (EtcdDelete k p)
     | SearchDeleteByID i => sc_fail sc (SearchDeleteByID i)
     | SendMsg _ => tt
     | DeleteStateMarchin en => sc_teardown sc en
     | RtSetProperties en => sc_fail sc (RtSetProperties en)
     | RtPatchEntity en pd => sc_fail sc (RtPatchEntity en pd)
     | RtSetConfigs en => sc_fail sc (RtSetConfigs en)
     | RtAppendMapper en => sc_fail sc (RtAppendMapper en)
     | RtRemoveMapper en => sc_fail sc (RtRemoveMapper en)
     | EncodeBase b => sc_encode sc b
     | DecodeBase d => sc_decode sc d
     end).

Definition rule1 : Mapper := {| Name := "m1"; TQLString := "insert into dev-1 select a.p" |}.
Definition rule2 : Mapper := {| Name := "m2"; TQLString := "insert into dev-1 select b.q" |}.

Definition dev1 : Base :=
  {| ID := "dev-1"; Type_ := "device"; Properties := []; Configs := [];
     Mappers := [rule1; rule2] |}.

Definition anon : Base :=
  {| ID := ""; Type_ := "device"; Properties := []; Configs := []; Mappers := [] |}.

Definition blob : bytes := [x7b; x7d].

Definition sixteen : bytes :=
  [x00; x11; x22; x33; x44; x55; x66; x77; x88; x99; xaa; xbb; xcc; xdd; xee; xff].

Definition sampleFormat (typ id name : string) : string :=
  SubscriptionPrefix +:+ typ +:+ "." +:+ id +:+ "." +:+ name.

(** Every collaborator works and the store holds a snapshot under every key. *)
Definition all_good : Script :=
  {| sc_rand := (sixteen, None);
     sc_get := fun key => (Some {| Key := key; Value := blob |}, None);
     sc_encode := fun _ => (blob, None);
     sc_decode := fun _ => (Some dev1, None);
     sc_teardown := fun en => (Some en, None);
     sc_fail := fun _ => None |}.

(** The store holds nothing: [GetState] gives an item without value and
    no error. *)
Definition empty_store : Script :=
  {| sc_rand := (sixteen, None);
     sc_get := fun key => (Some {| Key := key; Value := [] |}, None);
     sc_encode := fun _ => (blob, None);
     sc_decode := fun _ => (Some dev1, None);
     sc_teardown := fun en => (Some en, None);
     sc_fail := fun _ => None |}.

(** Every read of the store comes back with an error. *)
Definition store_read_fails : Script :=
  {| sc_rand := (sixteen, None);
     sc_get := fun _ => (None, Some (ErrOpaque "connection refused"));
     sc_encode := fun _ => (blob, None);
     sc_decode := fun _ => (Some dev1, None);
     sc_teardown := fun en => (Some en, None);
     sc_fail := fun _ => None |}.

(** The randomness source fails; everything else as in [all_good]. *)
Definition rand_down : Script :=
  {| sc_rand := ([], Some (ErrOpaque "entropy unavailable"));
     sc_get := sc_get all_good;
     sc_encode := sc_encode all_good;
     sc_decode := sc_decode all_good;
     sc_teardown := sc_teardown all_good;
     sc_fail := sc_fail all_good |}.

(** The registry refuses the key of [rule2]; the search index is down. *)
Definition second_rule_refused : Script :=
  {| sc_rand := (sixteen, None);
     sc_get := sc_get all_good;
     sc_encode := sc_encode all_good;
     sc_decode := sc_decode all_good;
     sc_teardown := sc_teardown all_good;
     sc_fail := fun c =>
       match c with
       | EtcdPut key _ | EtcdDelete key _ =>
           if String.eqb key "core.tql.dev-1m2"
           then Some (ErrOpaque "etcd: request timed out") else None
       | SearchDeleteByID _ => Some (ErrOpaque "search: unavailable")
       | _ => None
       end |}.

(** The runtime teardown hands back neither snapshot nor error. *)
Definition teardown_without_snapshot : Script :=
  {| sc_rand := (sixteen, None);
     sc_get := sc_get all_good;
     sc_encode := sc_encode all_good;
     sc_decode := sc_decode all_good;
     sc_teardown := fun _ => (None, None);
     sc_fail := sc_fail all_good |}.

(** ** Conventions of the absent collaborators *)

(** [runtime.Manager.DeleteStateMarchin] and [statem.DecodeBase] follow
    the Go convention for a [( *T, error)] pair: they never hand back a
    nil snapshot together with a nil error. *)
Definition snapshot_convention {S : Type} (h : Handler S) : Prop :=
  forall s : S,
    (forall en, nil_nil (h (DeleteStateMarchin en) s).2 = false) /\
    (forall data, nil_nil (h (DecodeBase data) s).2 = false).

(** ** Shapes of runs *)

Definition getEv (en : Base) (r : option StateItem * option error) : Event :=
  Ev (GetState EntityStateName (ID en)) r.

Definition decodeEv (data : bytes) (r : option Base * option error) : Event :=
  Ev (DecodeBase data) r.

Definition putEv (en : Base) (err : option error) (mm : Mapper) : Event :=
  Ev (EtcdPut (mapperKey en mm) (TQLString mm)) err.

Definition delEv (en : Base) (err : option error) (mm : Mapper) : Event :=
  Ev (EtcdDelete (mapperKey en mm) false) err.

(** The four ways [getEntityFromState] can go. *)
Inductive ReadRun (en : Base) : list Event -> Result -> Prop :=
| read_store_failed data e :
    ReadRun en [getEv en (data, Some e)]
      (None, Some (Wrap e "get entity properties"))
| read_empty data :
    empty_item data = true ->
    ReadRun en [getEv en (data, None)] (None, Some ErrEntityNotFound)
| read_decode_failed item b e :
    empty_item (Some item) = false ->
    ReadRun en [getEv en (Some item, None); decodeEv (Value item) (b, Some e)]
      (None, Some (Wrap e "get entity properties"))
| read_decoded item b :
    empty_item (Some item) = false ->
    ReadRun en [getEv en (Some item, None); decodeEv (Value item) (b, None)]
      (b, None).

(** A mutation delegated to the runtime ([rt] builds the event of the
    runtime call from its answer), then the confirmed re-read. *)
Inductive MutateRun (en : Base) (rt : option error -> Event) (label : string)
  : list Event -> Outcome Result -> Prop :=
| mutate_runtime_failed e :
    MutateRun en rt label [rt (Some e)] (Returned (None, Some (Wrap e label)))
| mutate_reread tr r :
    ReadRun en tr r ->
    MutateRun en rt label (rt None :: tr) (Returned (wrap_result label r)).

(** Mapper management: the pre-check, one registry call per mapper ([ev]
    builds its event), the runtime call [rt], the re-read. *)
Inductive MapperRun (en : Base) (ev : option error -> Mapper -> Event)
    (rt : option error -> Event) (label : string)
  : list Event -> Outcome Result -> Prop :=
| mapper_precheck_failed data e :
    MapperRun en ev rt label [getEv en (data, Some e)]
      (Returned (None, Some (Wrap e "get state")))
| mapper_registry_failed data k mm e :
    Mappers en !! k = Some mm ->
    MapperRun en ev rt label
      (getEv en (data, None) :: (ev None <$> take k (Mappers en)) ++ [ev (Some e) mm])
      (Returned (None, Some (Wrap e "append mapper")))
| mapper_runtime_failed data e :
    MapperRun en ev rt label
      (getEv en (data, None) :: (ev None <$> Mappers en) ++ [rt (Some e)])
      (Returned (None, Some (Wrap e label)))
| mapper_reread data tr r :
    ReadRun en tr r ->
    MapperRun en ev rt label
      (getEv en (data, None) :: (ev None <$> Mappers en) ++ rt None :: tr)
      (Returned (wrap_result label r)).

(** The labels of the four steps of [DeleteEntity], in order. *)
Definition delete_labels : list string :=
  ["delete entity from runtime"; "delete entity from es state";
   "delete entity from state"; "delete entity"].

(** The five ways [DeleteEntity] can go once the runtime keeps the
    convention; [key] is the etcd prefix of step 4. *)
Inductive DeleteRun (en : Base) (key : string)
  : list Event -> Outcome Result -> Prop :=
| delete_runtime_failed b e :
    DeleteRun en key
      [Ev (DeleteStateMarchin en) (b, Some e)]
      (Returned (None, Some (Wrap e "delete entity from runtime")))
| delete_search_failed b e :
    DeleteRun en key
      [Ev (DeleteStateMarchin en) (Some b, None);
       Ev (SearchDeleteByID (ID en)) (Some e)]
      (Returned (None, Some (Wrap e "delete entity from es state")))
| delete_store_failed b e :
    DeleteRun en key
      [Ev (DeleteStateMarchin en) (Some b, None);
       Ev (SearchDeleteByID (ID en)) None;
       Ev (DeleteState EntityStateName (ID en)) (Some e)]
      (Returned (None, Some (Wrap e "delete entity from state")))
| delete_registry_failed b e :
    DeleteRun en key
      [Ev (DeleteStateMarchin en) (Some b, None);
       Ev (SearchDeleteByID (ID en)) None;
       Ev (DeleteState EntityStateName (ID en)) None;
       Ev (EtcdDelete key true) (Some e)]
      (Returned (None, Some (Wrap e "delete entity")))
| delete_done b :
    DeleteRun en key
      [Ev (DeleteStateMarchin en) (Some b, None);
       Ev (SearchDeleteByID (ID en)) None;
       Ev (DeleteState EntityStateName (ID en)) None;
       Ev (EtcdDelete key true) None]
      (Returned (Some b, None)).

(** The operations that end with [getEntityFromState]. *)
Definition rereads (op : Operation) : bool :=
  match op with
  | OpCreate _ | OpDelete _ => false
  | _ => true
  end.

(** ** The registry as a map

    Modelled from the spec: the Coordination Registry is a key-value
    store in which a call that returns success has taken effect; a call
    that returns an error is taken to leave the keys as they were. *)
Definition registry_step (reg : gmap string string) (e : Event)
  : gmap string string :=
  match e with
  | Ev c r =>
      match c return Resp c -> gmap string string with
      | EtcdPut key val => fun r =>
          match r with
          | None => <[key := val]> reg
          | Some _ => reg
          end
      | EtcdDelete key withPrefix => fun r =>
          match r with
          | None =>
              if withPrefix
              then filter (fun kv => negb (String.prefix key kv.1) = true) reg
              else delete key reg
          | Some _ => reg
          end
      | _ => fun _ => reg
      end r
  end.

Definition registry_after (tr : list Event) (reg : gmap string string)
  : gmap string string :=
  foldl registry_step reg tr.

Definition put_mapper (en : Base) (reg : gmap string string) (mm : Mapper)
  : gmap string string :=
  <[mapperKey en mm := TQLString mm]> reg.

Definition del_mapper (en : Base) (reg : gmap string string) (mm : Mapper)
  : gmap string string :=
  delete (mapperKey en mm) reg.

(** ** Further readings of a trace *)

(** The error a call came back with, when its answer carries one. *)
Definition ev_error (e : Event) : option error :=
  match e with
  | Ev c r =>
      match c return Resp c -> option error with
      | RandRead _ => fun r => r.2
      | GetState _ _ => fun r => r.2
      | SaveState _ _ _ => fun r => r
      | DeleteState _ _ => fun r => r
      | EtcdPut _ _ => fun r => r
      | EtcdDelete _ _ => fun r => r
      | SearchDeleteByID _ => fun r => r
      | SendMsg _ => fun _ => None
      | DeleteStateMarchin _ => fun r => r.2
      | RtSetProperties _ => fun r => r
      | RtPatchEntity _ _ => fun r => r
      | RtSetConfigs _ => fun r => r
      | RtAppendMapper _ => fun r => r
      | RtRemoveMapper _ => fun r => r
      | EncodeBase _ => fun r => r.2
      | DecodeBase _ => fun r => r.2
      end r
  end.

(** The call came back with an error. *)
Definition failed (e : Event) : bool :=
  match ev_error e with
  | Some _ => true
  | None => false
  end.

(** The error of the call, if any, has no [ErrEntityNotFound] in its chain. *)
Definition answers_clean (e : Event) : bool :=
  negb (errors_Is (ev_error e) ErrEntityNotFound).

(** The namespace and key of a call on the state store. *)
Definition store_target (c : Call) : option (string * string) :=
  match c with
  | GetState store key | DeleteState store key => Some (store, key)
  | SaveState store key _ => Some (store, key)
  | _ => None
  end.

(** The key of a call on etcd. *)
Definition registry_key (c : Call) : option string :=
  match c with
  | EtcdPut key _ | EtcdDelete key _ => Some key
  | _ => None
  end.

Definition is_registry_call (c : Call) : bool :=
  match c with
  | EtcdPut _ _ | EtcdDelete _ _ => true
  | _ => false
  end.

Definition is_search_call (c : Call) : bool :=
  match c with
  | SearchDeleteByID _ => true
  | _ => false
  end.

Definition is_rand (c : Call) : bool :=
  match c with
  | RandRead _ => true
  | _ => false
  end.

(** The call changes something outside the manager: a write or a delete
    on the store, any call on etcd, the search index or the runtime. *)
Definition is_mutation (c : Call) : bool :=
  is_store_write c || is_registry_call c || is_search_call c || is_runtime_call c.

(** The entity an operation works on. *)
Definition entity_of (op : Operation) : Base :=
  match op with
  | OpCreate en | OpDelete en | OpGetProperties en | OpSetProperties en
  | OpSetConfigs en | OpPatch en _ | OpAppendMapper en | OpRemoveMapper en => en
  end.

(** The most collaborator calls an operation can make. *)
Definition call_bound (op : Operation) : nat :=
  match op with
  | OpCreate _ => 6
  | OpDelete _ => 4
  | OpGetProperties _ => 2
  | OpSetProperties _ | OpSetConfigs _ | OpPatch _ _ => 3
  | OpAppendMapper en | OpRemoveMapper en => length (Mappers en) + 4
  end.

(** The ways lines 99-126 of [CreateEntity] can go; [tr] and [r] are the
    trace and the result of the probe. *)
Inductive CreateRun (base : Base) : list Event -> Result -> Prop :=
| create_probe_not_found tr r :
    ReadRun base tr r ->
    errors_Is r.2 ErrEntityNotFound = true ->
    CreateRun base tr (None, r.2)
| create_encode_failed tr r data e :
    ReadRun base tr r ->
    errors_Is r.2 ErrEntityNotFound = false ->
    CreateRun base (tr ++ [Ev (EncodeBase base) (data, Some e)])
      (None, Some (Wrap e "create entity"))
| create_save_failed tr r data e :
    ReadRun base tr r ->
    errors_Is r.2 ErrEntityNotFound = false ->
    CreateRun base
      (tr ++ [Ev (EncodeBase base) (data, None);
              Ev (SaveState EntityStateName (ID base) data) (Some e)])
      (None, Some (Wrap e "create entity"))
| create_done tr r data :
    ReadRun base tr r ->
    errors_Is r.2 ErrEntityNotFound = false ->
    CreateRun base
      (tr ++ [Ev (EncodeBase base) (data, None);
              Ev (SaveState EntityStateName (ID base) data) None;
              Ev (SendMsg {| StateID := ID base; Operator := "replace" |}) tt])
      (Some base, None).

(** The ways [DeleteEntity] can go whatever the runtime answers; the
    snapshot [b] of the teardown may be nil. *)
Inductive DeleteSteps (en : Base) (key : string)
  : list Event -> Outcome Result -> Prop :=
| steps_runtime_failed b e :
    DeleteSteps en key
      [Ev (DeleteStateMarchin en) (b, Some e)]
      (Returned (None, Some (Wrap e "delete entity from runtime")))
| steps_search_failed b e :
    DeleteSteps en key
      [Ev (DeleteStateMarchin en) (b, None);
       Ev (SearchDeleteByID (ID en)) (Some e)]
      (Returned (None, Some (Wrap e "delete entity from es state")))
| steps_store_failed b e :
    DeleteSteps en key
      [Ev (DeleteStateMarchin en) (b, None);
       Ev (SearchDeleteByID (ID en)) None;
       Ev (DeleteState EntityStateName (ID en)) (Some e)]
      (Returned (None, Some (Wrap e "delete entity from state")))
| steps_registry_failed b e :
    DeleteSteps en key
      [Ev (DeleteStateMarchin en) (b, None);
       Ev (SearchDeleteByID (ID en)) None;
       Ev (DeleteState EntityStateName (ID en)) None;
       Ev (EtcdDelete key true) (Some e)]
      (match b with
       | Some _ => Returned (None, Some (Wrap e "delete entity"))
       | None => Panicked
       end)
| steps_done b :
    DeleteSteps en key
      [Ev (DeleteStateMarchin en) (b, None);
       Ev (SearchDeleteByID (ID en)) None;
       Ev (DeleteState EntityStateName (ID en)) None;
       Ev (EtcdDelete key true) None]
      (Returned (b, None)).

Definition is_create (op : Operation) : bool :=
  match op with
  | OpCreate _ => true
  | _ => false
  end.

(** A trace whose calls all succeeded but perhaps the last, with a
    result that is free of error exactly when the last call succeeded
    and was not an empty read. *)
Definition stops_at_failure (tr : list Event) (no_error : Prop) : Prop :=
  exists pre lst,
    tr = pre ++ [lst] /\ existsb failed pre = false /\
    (no_error <-> failed lst = false /\ is_empty_read lst = false).

(** The labels under which an operation wraps the errors it hands back. *)
Definition labels_of (op : Operation) : list string :=
  match op with
  | OpCreate _ => ["create entity"]
  | OpDelete _ => delete_labels
  | OpGetProperties _ => ["entity GetProperties"]
  | OpSetProperties _ => ["set entity properties"]
  | OpSetConfigs _ => ["set entity configs"]
  | OpPatch _ _ => ["patch entity properties"]
  | OpAppendMapper _ => ["get state"; "append mapper"]
  | OpRemoveMapper _ => ["get state"; "append mapper"; "remove mapper"]
  end.

(** ** The calls an operation may make *)

Section Permitted.

Variable FormatMapper : string -> string -> string -> string.

(** A read of the entity's own snapshot: [GetState] on its key in the
    "core-state" namespace, or a decoding. *)
Definition own_read (en : Base) (c : Call) : Prop :=
  match c with
  | GetState store key => store = EntityStateName /\ key = ID en
  | DecodeBase _ => True
  | _ => False
  end.

(** What each operation may call and with which arguments, read off its
    body.  [target] is the snapshot the operation works on: the entity
    it was given, with the generated [ID] in case of a create that was
    given none. *)
Definition permitted (op : Operation) (target : Base) (c : Call) : Prop :=
  match op with
  | OpCreate base =>
      match c with
      | RandRead n => ID base = "" /\ n = 16
      | GetState store key | SaveState store key _ =>
          store = EntityStateName /\ key = ID target
      | DecodeBase _ => True
      | EncodeBase b => b = target
      | SendMsg msg => msg = {| StateID := ID target; Operator := "replace" |}
      | _ => False
      end
  | OpDelete _ =>
      match c with
      | DeleteStateMarchin en' => en' = target
      | SearchDeleteByID id => id = ID target
      | DeleteState store key => store = EntityStateName /\ key = ID target
      | EtcdDelete key withPrefix =>
          withPrefix = true /\
          key = FormatMapper (Type_ target) (ID target) "subscription"
      | _ => False
      end
  | OpGetProperties _ => own_read target c
  | OpSetProperties _ =>
      match c with
      | RtSetProperties en' => en' = target
      | _ => own_read target c
      end
  | OpSetConfigs _ =>
      match c with
      | RtSetConfigs en' => en' = target
      | _ => own_read target c
      end
  | OpPatch _ patchData =>
      match c with
      | RtPatchEntity en' patchData' => en' = target /\ patchData' = patchData
      | _ => own_read target c
      end
  | OpAppendMapper _ =>
      match c with
      | EtcdPut key val =>
          exists mm,
            mm ∈ Mappers target /\ key = mapperKey target mm /\ val = TQLString mm
      | RtAppendMapper en' => en' = target
      | _ => own_read target c
      end
  | OpRemoveMapper _ =>
      match c with
      | EtcdDelete key withPrefix =>
          withPrefix = false /\
          exists mm, mm ∈ Mappers target /\ key = mapperKey target mm
      | RtRemoveMapper en' => en' = target
      | _ => own_read target c
      end
  end.

End Permitted.

(** ** The random bits of an identifier *)

(** The sixteen bytes as [uuid] patches them (lines 270 and 272). *)
Definition patched (u : bytes) : bytes :=
  alter (fun b => clear_set b 0xf0 0x40) 6
    (alter (fun b => clear_set b 0xc0 0x80) 8 u).

(** The sixteen bytes with the six bits cleared that [uuid] overwrites:
    what is left are the 122 random bits of the identifier. *)
Definition random_bits (u : bytes) : bytes :=
  alter (fun b => byte_of_N (N.land (Byte.to_N b) 0x0f)) 6
    (alter (fun b => byte_of_N (N.land (Byte.to_N b) 0x3f)) 8 u).

(** The byte printed as the two digits [c1 c2]. *)
Definition unhex_byte (c1 c2 : ascii) : option byte :=
  hi ← hex_value c1; lo ← hex_value c2; Byte.of_N (16 * hi + lo).

(** The bytes printed by [hex]. *)
Fixpoint unhex (s : string) : option bytes :=
  match s with
  | EmptyString => Some []
  | String c1 (String c2 s') =>
      b ← unhex_byte c1 c2; bs ← unhex s'; Some (b :: bs)
  | String _ EmptyString => None
  end.

(** The string without its hyphens. *)
Fixpoint drop_hyphens (s : string) : string :=
  match s with
  | EmptyString => EmptyString
  | String c s' =>
      if Ascii.eqb c "-" then drop_hyphens s' else String c (drop_hyphens s')
  end.

(** The sixteen bytes an identifier was printed from. *)
Definition uuid_parse (s : string) : option bytes := unhex (drop_hyphens s).

(** ** errResult (service package, after the separator in manager.go) *)

(** [common.Content] of the dapr service API. *)
Record Content : Type := {
  Data : bytes;
  ContentType : string;
  DataTypeURL : string
}.

(** [[]byte(s)]. *)
Fixpoint bytes_of_string (s : string) : bytes :=
  match s with
  | EmptyString => []
  | String c s' => byte_of_ascii c :: bytes_of_string s'
  end.

Section ErrorText.

(** The texts of the two sentinels, declared outside manager.go. *)
Variable notFoundText alreadyExistedText : string.

(** [err.Error()]: a collaborator's error prints its message, a wrapped
    one its label, a colon and a blank, then the cause. *)
Fixpoint error_Error (e : error) : string :=
  match e with
  | ErrEntityNotFound => notFoundText
  | ErrEntityAreadyExisted => alreadyExistedText
  | ErrOpaque msg => msg
  | Wrap cause msg => msg +:+ ": " +:+ error_Error cause
  end.

(** [errResult(out, err)]: the content after the call. *)
Definition errResult (out : Content) (err : option error) : Content :=
  match err with
  | Some e =>
      {| Data := bytes_of_string (error_Error e);
         ContentType := ContentType out;
         DataTypeURL := DataTypeURL out |}
  | None => out
  end.

End ErrorText.

(** * Properties *)

(** ** Identifier generation *)

Section Identifier.

Lemma hex_digit_is_hex (n : N) : is_hex_digit (hex_digit n) = true.
Proof.
  destruct n as [|p]; [done|].
  do 4 (destruct p as [p|p|]; try done).
Qed.

Lemma hex_all_hex (bs : bytes) : all_hex (hex bs) = true.
Proof.
  induction bs as [|b bs IH]; [done|].
  simpl. by rewrite !hex_digit_is_hex, IH.
Qed.

Lemma fill_length (buf src : bytes) : length (fill buf src) = length buf.
Proof.
  revert src. induction buf as [|b buf IH]; intros [|x src]; simpl; auto.
Qed.

(** [b &^ 0xf0 | 0x40] prints with the digit 4 first. *)
Lemma version_digit (b : byte) :
  hex_digit (Byte.to_N (clear_set b 0xf0 0x40) / 16) = "4"%char.
Proof. by destruct b. Qed.

(** [b &^ 0xc0 | 0x80] prints with one of 8, 9, a, b first. *)
Lemma variant_digit (b : byte) :
  exists v,
    hex_value (hex_digit (Byte.to_N (clear_set b 0xc0 0x80) / 16)) = Some v
    /\ N.shiftr v 2 = 2%N.
Proof. destruct b; eexists; split; reflexivity. Qed.

Lemma uuid_Sprintf_format (u : bytes) (b6 b8 : byte) :
  length u = 16 ->
  u !! 6 = Some (clear_set b6 0xf0 0x40) ->
  u !! 8 = Some (clear_set b8 0xc0 0x80) ->
  uuid_format (uuid_Sprintf u).
Proof.
  intros Hlen H6 H8.
  destruct u as
    [|u0 [|u1 [|u2 [|u3 [|u4 [|u5 [|u6 [|u7 [|u8 [|u9 [|u10 [|u11
     [|u12 [|u13 [|u14 [|u15 [|? ?]]]]]]]]]]]]]]]]];
    try discriminate Hlen.
  simpl in H6, H8. injection H6 as ->. injection H8 as ->.
  destruct (variant_digit b8) as (v & Hv & Hbits).
  exists (hex [u0; u1; u2; u3]), (hex [u4; u5]),
    (hex [clear_set b6 0xf0 0x40; u7]), (hex [clear_set b8 0xc0 0x80; u9]),
    (hex [u10; u11; u12; u13; u14; u15]), v.
  split; [reflexivity|].
  split; [reflexivity|].
  split; [cbn [forallb]; by rewrite !hex_all_hex|].
  split; [cbn [hex String.get]; by rewrite version_digit|].
  split; [exact Hv | exact Hbits].
Qed.

(** On a buffer of sixteen bytes neither index is out of range. *)
Lemma update_at_16 (f8 f6 : byte -> byte) (u : bytes) :
  length u = 16 ->
  exists b6 b8 u1 u2,
    update_at 8 f8 u = Some u1 /\ update_at 6 f6 u1 = Some u2 /\
    length u2 = 16 /\ u2 !! 6 = Some (f6 b6) /\ u2 !! 8 = Some (f8 b8).
Proof.
  intros Hlen.
  destruct u as
    [|u0 [|u1 [|u2 [|u3 [|u4 [|u5 [|u6 [|u7 [|u8 [|u9 [|u10 [|u11
     [|u12 [|u13 [|u14 [|u15 [|? ?]]]]]]]]]]]]]]]]];
    try discriminate Hlen.
  by eexists u6, u8, _, _.
Qed.

End Identifier.

(** ** Runs against an arbitrary handler *)

Section Runs.

Context {S : Type} (h : Handler S).
Variable FormatMapper : string -> string -> string -> string.

Lemma run_bind {A B : Type} (p : Prog A) (f : A -> Prog B) (s : S) :
  run h (bind p f) s =
  match run h p s with
  | (tr, Returned a, s1) => prepend tr (run h (f a) s1)
  | (tr, Panicked, s1) => (tr, Panicked, s1)
  end.
Proof.
  revert s. induction p as [a| |c k IH]; intros s; simpl.
  - unfold prepend. by destruct (run h (f a) s) as [[tr o] s1].
  - done.
  - destruct (h c s) as [s1 r]. rewrite IH.
    by destruct (run h (k r) s1) as [[tr [a|]] s2].
Qed.

(** A handler that keeps the convention keeps it in every trace. *)
Lemma run_keeps_convention {A : Type} (p : Prog A) (s : S) :
  snapshot_convention h ->
  forallb keeps_convention (trace_of (run h p s)) = true.
Proof.
  intros Hconv. revert s.
  induction p as [a| |c k IH]; intros s; [done..|].
  simpl. destruct (h c s) as [s1 r] eqn:Hc.
  specialize (IH r s1). destruct (run h (k r) s1) as [[tr o] s2].
  unfold trace_of in *. simpl in *. rewrite IH, andb_true_r.
  destruct (Hconv s) as [Htd Hdec].
  destruct c; try done; simpl.
  - specialize (Htd en). rewrite Hc in Htd. simpl in Htd. by rewrite Htd.
  - specialize (Hdec data). rewrite Hc in Hdec. simpl in Hdec. by rewrite Hdec.
Qed.

(** *** uuid *)

Lemma uuid_run (s : S) :
  exists src err s1 id,
    h (RandRead 16) s = (s1, (src, err)) /\
    run h uuid s = ([Ev (RandRead 16) (src, err)], Returned id, s1) /\
    match err with
    | None => uuid_format id
    | Some _ => id = ""
    end.
Proof.
  unfold uuid. simpl.
  destruct (h (RandRead 16) s) as [s1 [src [e|]]]; simpl.
  - by eexists _, _, _, _.
  - destruct (update_at_16 (fun b => clear_set b 0xc0 0x80)
                (fun b => clear_set b 0xf0 0x40)
                (fill (replicate 16 x00) src))
      as (b6 & b8 & u1 & u2 & H1 & H2 & Hlen & H6 & H8).
    { by rewrite fill_length. }
    simpl in H1. rewrite H1, H2. simpl.
    eexists _, _, _, _. split; [done|]. split; [done|].
    eapply uuid_Sprintf_format; eauto.
Qed.

(** *** getEntityFromState *)

Lemma getEntityFromState_run (en : Base) (s : S) :
  exists tr r s1,
    run h (getEntityFromState en) s = (tr, Returned r, s1) /\ ReadRun en tr r.
Proof.
  unfold getEntityFromState. simpl.
  destruct (h (GetState EntityStateName (ID en)) s) as [s1 [data [e|]]]; simpl.
  - eexists _, _, _. split; [done|]. apply read_store_failed.
  - destruct data as [item|]; simpl.
    + destruct (Nat.eqb (length (Value item)) 0) eqn:Hlen; simpl.
      * eexists _, _, _. split; [done|]. by apply read_empty.
      * destruct (h (DecodeBase (Value item)) s1) as [s2 [b [e|]]]; simpl;
          eexists _, _, _; (split; [done|]).
        -- by apply read_decode_failed.
        -- by apply read_decoded.
    + eexists _, _, _. split; [done|]. by apply read_empty.
Qed.

Lemma ReadRun_nonempty (en : Base) (tr : list Event) (r : Result) :
  ReadRun en tr r -> tr <> [].
Proof. by destruct 1. Qed.

(** Line 174: when the store answers without error and with a nil item
    or a value of length zero, the read stops there with
    [ErrEntityNotFound]. *)
Lemma getEntityFromState_empty (en : Base) (data : option StateItem) (s s1 : S) :
  empty_item data = true ->
  h (GetState EntityStateName (ID en)) s = (s1, (data, None)) ->
  run h (getEntityFromState en) s
  = ([getEv en (data, None)], Returned (None, Some ErrEntityNotFound), s1).
Proof.
  intros Hempty Hget. unfold getEntityFromState. simpl. rewrite Hget. simpl.
  destruct data as [item|]; [|done]. simpl in Hempty. by rewrite Hempty.
Qed.

(** A read whose decoder keeps the convention is exclusive. *)
Lemma ReadRun_exclusive (en : Base) (tr : list Event) (r : Result) (label : string) :
  ReadRun en tr r ->
  forallb keeps_convention tr = true ->
  exclusive (Returned r) /\ exclusive (Returned (wrap_result label r)).
Proof.
  destruct 1; simpl; try done.
  destruct b; [done|]. intros; discriminate.
Qed.

(** *** CreateEntity *)

(** The rest of create never panics; a snapshot it hands back is the
    one it was given, and comes without error. *)
Lemma createWithID_result (base : Base) (s : S) :
  exists tr r s1,
    run h (createWithID base) s = (tr, Returned r, s1) /\
    (r = (Some base, None) \/ exists e, r = (None, Some e)).
Proof.
  unfold createWithID. rewrite run_bind.
  destruct (getEntityFromState_run base s) as (tr & [b err] & s1 & -> & _).
  destruct (errors_Is err ErrEntityNotFound) eqn:His; simpl.
  - destruct err as [e|]; [|discriminate His].
    eexists _, _, _. split; [done|]. right. by eexists.
  - destruct (h (EncodeBase base) s1) as [s2 [data [e|]]]; simpl.
    { eexists _, _, _. split; [done|]. right. by eexists. }
    destruct (h (SaveState EntityStateName (ID base) data) s2) as [s3 [e|]]; simpl.
    { eexists _, _, _. split; [done|]. right. by eexists. }
    destruct (h (SendMsg _) s3) as [s4 []]; simpl.
    eexists _, _, _. split; [done|]. by left.
Qed.

(** What the probe decides at line 100: when it reports
    [ErrEntityNotFound] create stops with that error and calls nothing
    more; otherwise, with or without another error, create goes on to
    the encoding. *)
Lemma createWithID_follows_probe (base : Base) (s : S) :
  exists tr r s1,
    run h (getEntityFromState base) s = (tr, Returned r, s1) /\
    if errors_Is r.2 ErrEntityNotFound
    then run h (createWithID base) s = (tr, Returned (None, r.2), s1)
    else exists ans rest out s2,
        run h (createWithID base) s
        = (tr ++ Ev (EncodeBase base) ans :: rest, out, s2).
Proof.
  unfold createWithID. rewrite run_bind.
  destruct (getEntityFromState_run base s) as (tr & [b err] & s1 & Hrun & _).
  rewrite Hrun. exists tr, (b, err), s1. split; [done|]. cbn [snd].
  destruct (errors_Is err ErrEntityNotFound) eqn:His.
  - destruct err as [e|]; [|discriminate His].
    unfold prepend. simpl. by rewrite app_nil_r.
  - unfold prepend. simpl.
    destruct (h (EncodeBase base) s1) as [s2 [data [e|]]]; simpl.
    { by eexists _, _, _, _. }
    destruct (h (SaveState EntityStateName (ID base) data) s2) as [s3 [e|]]; simpl.
    { by eexists _, _, _, _. }
    destruct (h (SendMsg _) s3) as [s4 []]; simpl.
    by eexists _, _, _, _.
Qed.

Lemma CreateEntity_with_ID (base : Base) (s : S) :
  ID base <> "" ->
  run h (CreateEntity base) s = run h (createWithID base) s.
Proof.
  intros Hid. unfold CreateEntity.
  destruct (String.eqb_spec (ID base) ""); [done|]. reflexivity.
Qed.

Lemma CreateEntity_without_ID (base : Base) (s : S) :
  ID base = "" ->
  exists src err s1 id,
    h (RandRead 16) s = (s1, (src, err)) /\
    run h (CreateEntity base) s =
      prepend [Ev (RandRead 16) (src, err)]
        (run h (createWithID (set_ID id base)) s1) /\
    match err with
    | None => uuid_format id
    | Some _ => id = ""
    end.
Proof.
  intros Hid. unfold CreateEntity. rewrite Hid. simpl String.eqb. cbv iota.
  rewrite !run_bind.
  destruct (uuid_run s) as (src & err & s1 & id & Hr & -> & Hfmt).
  exists src, err, s1, id. split; [done|]. split; [|done].
  unfold prepend. simpl.
  by destruct (run h (createWithID (set_ID id base)) s1) as [[tr o] s2].
Qed.

(** C4: a create call with empty [ID] whose randomness source succeeds
    runs the rest of create on an identifier of five hyphen-separated
    hexadecimal groups of 8-4-4-4-12 characters, whose version digit
    is 4 and whose variant digit has its two high bits 10; every
    snapshot the call hands back carries that identifier. *)
Theorem create_assigns_uuid (base : Base) (s s1 : S) (src : bytes) :
  ID base = "" ->
  h (RandRead 16) s = (s1, (src, None)) ->
  exists id,
    uuid_format id /\
    run h (CreateEntity base) s =
      prepend [Ev (RandRead 16) (src, None)]
        (run h (createWithID (set_ID id base)) s1) /\
    forall b err,
      outcome_of (run h (CreateEntity base) s) = Returned (Some b, err) ->
      ID b = id.
Proof.
  intros Hid Hrand.
  destruct (CreateEntity_without_ID base s Hid)
    as (src' & err' & s1' & id & Hr & Hrun & Hfmt).
  rewrite Hrand in Hr. injection Hr as <- <- <-.
  exists id. split; [done|]. split; [done|].
  intros b err. rewrite Hrun.
  destruct (createWithID_result (set_ID id base) s1)
    as (tr & r & s2 & -> & [-> | [e ->]]); unfold outcome_of; simpl.
  - by intros [= <- _].
  - intros [=].
Qed.

Lemma set_ID_same (base : Base) : set_ID (ID base) base = base.
Proof. by destruct base. Qed.

(** C8, as the code has it: when the randomness source fails, [uuid]
    hands back the empty identifier and no error, and create goes on
    with the empty [ID]. *)
Theorem uuid_rand_failure_is_silent (base : Base) (s s1 : S) (src : bytes)
    (e : error) :
  h (RandRead 16) s = (s1, (src, Some e)) ->
  run h uuid s = ([Ev (RandRead 16) (src, Some e)], Returned "", s1) /\
  (ID base = "" ->
   run h (CreateEntity base) s =
     prepend [Ev (RandRead 16) (src, Some e)] (run h (createWithID base) s1)).
Proof.
  intros Hrand. split.
  - destruct (uuid_run s) as (src' & err' & s1' & id & Hr & -> & Hfmt).
    rewrite Hrand in Hr. injection Hr as <- <- <-. by rewrite Hfmt.
  - intros Hid.
    destruct (CreateEntity_without_ID base s Hid)
      as (src' & err' & s1' & id & Hr & -> & Hfmt).
    rewrite Hrand in Hr. injection Hr as <- <- <-.
    rewrite Hfmt, <- Hid. by rewrite set_ID_same.
Qed.

(** *** SetProperties, PatchEntity, SetConfigs *)

Lemma run_call (c : Call) (s : S) :
  run h (call c) s = ([Ev c (h c s).2], Returned (h c s).2, (h c s).1).
Proof. unfold call. simpl. by destruct (h c s). Qed.

Local Opaque getEntityFromState.

(** The tail shared by every operation that re-reads: run
    [getEntityFromState], wrap its error. *)
Ltac reread en s1 tr b err s2 Hread :=
  rewrite run_bind;
  destruct (getEntityFromState_run en s1) as (tr & [b err] & s2 & -> & Hread);
  unfold prepend; simpl; rewrite ?app_nil_r.

Lemma SetProperties_run (en : Base) (s : S) :
  exists tr out s1,
    run h (SetProperties en) s = (tr, out, s1) /\
    MutateRun en (Ev (RtSetProperties en)) "set entity properties" tr out.
Proof.
  unfold SetProperties. rewrite run_bind, run_call.
  destruct (h (RtSetProperties en) s) as [s1 [e|]]; simpl.
  - eexists _, _, _. split; [done|]. apply mutate_runtime_failed.
  - reread en s1 tr b err s2 Hread.
    eexists _, _, _. split; [done|]. by apply (mutate_reread _ _ _ tr (b, err)).
Qed.

Lemma PatchEntity_run (en : Base) (patchData : list PatchData) (s : S) :
  exists tr out s1,
    run h (PatchEntity en patchData) s = (tr, out, s1) /\
    MutateRun en (Ev (RtPatchEntity en patchData)) "patch entity properties" tr out.
Proof.
  unfold PatchEntity. rewrite run_bind, run_call.
  destruct (h (RtPatchEntity en patchData) s) as [s1 [e|]]; simpl.
  - eexists _, _, _. split; [done|]. apply mutate_runtime_failed.
  - reread en s1 tr b err s2 Hread.
    eexists _, _, _. split; [done|]. by apply (mutate_reread _ _ _ tr (b, err)).
Qed.

Lemma SetConfigs_run (en : Base) (s : S) :
  exists tr out s1,
    run h (SetConfigs en) s = (tr, out, s1) /\
    MutateRun en (Ev (RtSetConfigs en)) "set entity configs" tr out.
Proof.
  unfold SetConfigs. rewrite run_bind, run_call.
  destruct (h (RtSetConfigs en) s) as [s1 [e|]]; simpl.
  - eexists _, _, _. split; [done|]. apply mutate_runtime_failed.
  - reread en s1 tr b err s2 Hread.
    eexists _, _, _. split; [done|]. by apply (mutate_reread _ _ _ tr (b, err)).
Qed.

(** C7: SetProperties, SetConfigs and PatchEntity call the runtime
    first; when that call fails they hand back its error wrapped and
    read nothing; when it succeeds they re-read the stored snapshot
    with [getEntityFromState] and hand back what the re-read gave. *)
Theorem mutations_delegate_then_reread (en : Base)
    (patchData : list PatchData) (s : S) :
  let p := run h (SetProperties en) s in
  let c := run h (SetConfigs en) s in
  let d := run h (PatchEntity en patchData) s in
  MutateRun en (Ev (RtSetProperties en)) "set entity properties"
    (trace_of p) (outcome_of p) /\
  MutateRun en (Ev (RtSetConfigs en)) "set entity configs"
    (trace_of c) (outcome_of c) /\
  MutateRun en (Ev (RtPatchEntity en patchData)) "patch entity properties"
    (trace_of d) (outcome_of d).
Proof.
  cbv zeta.
  destruct (SetProperties_run en s) as (? & ? & ? & -> & Hp).
  destruct (SetConfigs_run en s) as (? & ? & ? & -> & Hc).
  destruct (PatchEntity_run en patchData s) as (? & ? & ? & -> & Hd).
  done.
Qed.

(** *** AppendMapper, RemoveMapper *)

(** The loop writes the mappers in list order and stops at the first
    refusal. *)
Lemma putMappers_run (en : Base) (ms : list Mapper) (s : S) :
  exists s1,
    run h (putMappers en ms) s = (putEv en None <$> ms, Returned None, s1) \/
    exists k mm e,
      ms !! k = Some mm /\
      run h (putMappers en ms) s =
        ((putEv en None <$> take k ms) ++ [putEv en (Some e) mm],
         Returned (Some e), s1).
Proof.
  revert s. induction ms as [|mm ms IH]; intros s.
  - exists s. by left.
  - simpl. unfold putEv, mapperKey.
    destruct (h (EtcdPut _ _) s) as [s1 [e|]]; simpl.
    + exists s1. right. by exists 0, mm, e.
    + destruct (IH s1) as [s2 [-> | (k & mm' & e & Hk & ->)]]; exists s2.
      * by left.
      * right. by exists (Datatypes.S k), mm', e.
Qed.

Lemma delMappers_run (en : Base) (ms : list Mapper) (s : S) :
  exists s1,
    run h (delMappers en ms) s = (delEv en None <$> ms, Returned None, s1) \/
    exists k mm e,
      ms !! k = Some mm /\
      run h (delMappers en ms) s =
        ((delEv en None <$> take k ms) ++ [delEv en (Some e) mm],
         Returned (Some e), s1).
Proof.
  revert s. induction ms as [|mm ms IH]; intros s.
  - exists s. by left.
  - simpl. unfold delEv, mapperKey.
    destruct (h (EtcdDelete _ _) s) as [s1 [e|]]; simpl.
    + exists s1. right. by exists 0, mm, e.
    + destruct (IH s1) as [s2 [-> | (k & mm' & e & Hk & ->)]]; exists s2.
      * by left.
      * right. by exists (Datatypes.S k), mm', e.
Qed.

Lemma AppendMapper_run (en : Base) (s : S) :
  exists tr out s1,
    run h (AppendMapper en) s = (tr, out, s1) /\
    MapperRun en (putEv en) (Ev (RtAppendMapper en)) "append mapper" tr out.
Proof.
  unfold AppendMapper. rewrite run_bind, run_call.
  destruct (h (GetState EntityStateName (ID en)) s) as [s1 [data [e|]]]; simpl.
  { eexists _, _, _. split; [done|]. apply mapper_precheck_failed. }
  rewrite run_bind.
  destruct (putMappers_run en (Mappers en) s1)
    as [s2 [-> | (k & mm & e & Hk & ->)]];
    unfold prepend; simpl; rewrite ?app_nil_r.
  2: { eexists _, _, _. split; [done|]. by eapply mapper_registry_failed. }
  destruct (h (RtAppendMapper en) s2) as [s3 [e|]];
    unfold prepend; simpl; rewrite ?app_nil_r.
  { eexists _, _, _. split; [done|]. apply mapper_runtime_failed. }
  reread en s3 tr b err s4 Hread.
  eexists _, _, _. split; [done|].
  by apply (mapper_reread _ _ _ _ data tr (b, err)).
Qed.

Lemma RemoveMapper_run (en : Base) (s : S) :
  exists tr out s1,
    run h (RemoveMapper en) s = (tr, out, s1) /\
    MapperRun en (delEv en) (Ev (RtRemoveMapper en)) "remove mapper" tr out.
Proof.
  unfold RemoveMapper. rewrite run_bind, run_call.
  destruct (h (GetState EntityStateName (ID en)) s) as [s1 [data [e|]]]; simpl.
  { eexists _, _, _. split; [done|]. apply mapper_precheck_failed. }
  rewrite run_bind.
  destruct (delMappers_run en (Mappers en) s1)
    as [s2 [-> | (k & mm & e & Hk & ->)]];
    unfold prepend; simpl; rewrite ?app_nil_r.
  2: { eexists _, _, _. split; [done|]. by eapply mapper_registry_failed. }
  destruct (h (RtRemoveMapper en) s2) as [s3 [e|]];
    unfold prepend; simpl; rewrite ?app_nil_r.
  { eexists _, _, _. split; [done|]. apply mapper_runtime_failed. }
  reread en s3 tr b err s4 Hread.
  eexists _, _, _. split; [done|].
  by apply (mapper_reread _ _ _ _ data tr (b, err)).
Qed.

Lemma never_app (kind : Call -> bool) (l1 l2 : list Event) :
  never kind (l1 ++ l2) = never kind l1 && never kind l2.
Proof. apply forallb_app. Qed.

Lemma never_fmap {A : Type} (kind : Call -> bool) (ev : A -> Event) (l : list A) :
  (forall a, kind (ev_call (ev a)) = false) ->
  never kind (ev <$> l) = true.
Proof.
  intros Hev. unfold never. induction l as [|a l IH]; [done|].
  rewrite fmap_cons. cbn [forallb]. by rewrite Hev, IH.
Qed.

Lemma existsb_fmap_false {A : Type} (f : Event -> bool) (ev : A -> Event)
    (l : list A) :
  (forall a, f (ev a) = false) -> existsb f (ev <$> l) = false.
Proof.
  intros Hev. induction l as [|a l IH]; [done|].
  rewrite fmap_cons. cbn [existsb]. by rewrite Hev, IH.
Qed.

Lemma registry_after_app (l1 l2 : list Event) (reg : gmap string string) :
  registry_after (l1 ++ l2) reg = registry_after l2 (registry_after l1 reg).
Proof. apply foldl_app. Qed.

Lemma registry_after_puts (en : Base) (ms : list Mapper) (reg : gmap string string) :
  registry_after (putEv en None <$> ms) reg = foldl (put_mapper en) reg ms.
Proof.
  revert reg. induction ms as [|mm ms IH]; intros reg; [done|]. apply IH.
Qed.

Lemma registry_after_dels (en : Base) (ms : list Mapper) (reg : gmap string string) :
  registry_after (delEv en None <$> ms) reg = foldl (del_mapper en) reg ms.
Proof.
  revert reg. induction ms as [|mm ms IH]; intros reg; [done|]. apply IH.
Qed.

Lemma ReadRun_no_registry (en : Base) (tr : list Event) (r : Result) :
  ReadRun en tr r -> existsb registry_refused tr = false.
Proof. by destruct 1. Qed.

(** A run in which the registry refused a call stopped at that call. *)
Lemma MapperRun_refused (en : Base) (ev : option error -> Mapper -> Event)
    (rt : option error -> Event) (label : string)
    (act : gmap string string -> Mapper -> gmap string string)
    (tr : list Event) (out : Outcome Result) :
  (forall mm, registry_refused (ev None mm) = false) ->
  (forall err, registry_refused (rt err) = false) ->
  (forall err mm, is_runtime_call (ev_call (ev err mm)) = false) ->
  (forall ms reg, registry_after (ev None <$> ms) reg = foldl act reg ms) ->
  (forall e mm reg, registry_step reg (ev (Some e) mm) = reg) ->
  MapperRun en ev rt label tr out ->
  existsb registry_refused tr = true ->
  exists data k mm e,
    Mappers en !! k = Some mm /\
    tr = getEv en (data, None) :: (ev None <$> take k (Mappers en))
         ++ [ev (Some e) mm] /\
    out = Returned (None, Some (Wrap e "append mapper")) /\
    never is_runtime_call tr = true /\
    forall reg, registry_after tr reg = foldl act reg (take k (Mappers en)).
Proof.
  intros Hok Hrt Hkind Hacts Hfail Hrun.
  destruct Hrun as [data e | data k mm e Hk | data e | data tr r Hread]; simpl.
  - done.
  - intros _. exists data, k, mm, e. repeat split; try done.
    + rewrite never_app, never_fmap by apply Hkind.
      unfold never. simpl. by rewrite Hkind.
    + intros reg. change (registry_after (?x :: ?l) reg) with (registry_after l reg).
      by rewrite registry_after_app, Hacts; unfold registry_after; simpl;
        rewrite Hfail.
  - rewrite existsb_app, existsb_fmap_false by apply Hok.
    simpl. by rewrite Hrt.
  - rewrite existsb_app, existsb_fmap_false by apply Hok.
    simpl. by rewrite Hrt, (ReadRun_no_registry en tr r).
Qed.

(** C6: after the pre-check AppendMapper issues one [Put] per mapper,
    RemoveMapper one [Delete], in list order, on the key made of the
    prefix, the entity [ID] and the mapper [Name] (with [TQLString] as
    the value of a [Put]).  When the registry refuses the call for the
    mapper at position [k], the run stops there with the error wrapped
    as "append mapper": the runtime is never called, and the registry
    holds the effect of the [k] earlier calls, none of which is taken
    back. *)
Theorem mapper_registry_calls (en : Base) (s : S) :
  let a := run h (AppendMapper en) s in
  let r := run h (RemoveMapper en) s in
  MapperRun en (putEv en) (Ev (RtAppendMapper en)) "append mapper"
    (trace_of a) (outcome_of a) /\
  MapperRun en (delEv en) (Ev (RtRemoveMapper en)) "remove mapper"
    (trace_of r) (outcome_of r) /\
  (existsb registry_refused (trace_of a) = true ->
   exists data k mm e,
     Mappers en !! k = Some mm /\
     trace_of a = getEv en (data, None)
                  :: (putEv en None <$> take k (Mappers en))
                  ++ [putEv en (Some e) mm] /\
     outcome_of a = Returned (None, Some (Wrap e "append mapper")) /\
     never is_runtime_call (trace_of a) = true /\
     forall reg, registry_after (trace_of a) reg
                 = foldl (put_mapper en) reg (take k (Mappers en))) /\
  (existsb registry_refused (trace_of r) = true ->
   exists data k mm e,
     Mappers en !! k = Some mm /\
     trace_of r = getEv en (data, None)
                  :: (delEv en None <$> take k (Mappers en))
                  ++ [delEv en (Some e) mm] /\
     outcome_of r = Returned (None, Some (Wrap e "append mapper")) /\
     never is_runtime_call (trace_of r) = true /\
     forall reg, registry_after (trace_of r) reg
                 = foldl (del_mapper en) reg (take k (Mappers en))).
Proof.
  cbv zeta.
  destruct (AppendMapper_run en s) as (ta & oa & sa & -> & Ha).
  destruct (RemoveMapper_run en s) as (tr & or & sr & -> & Hr).
  unfold trace_of, outcome_of. simpl.
  split; [done|]. split; [done|]. split.
  - apply (MapperRun_refused en (putEv en) (Ev (RtAppendMapper en))
             "append mapper" (put_mapper en) ta oa);
      auto using registry_after_puts.
  - apply (MapperRun_refused en (delEv en) (Ev (RtRemoveMapper en))
             "remove mapper" (del_mapper en) tr or);
      auto using registry_after_dels.
Qed.

(** *** DeleteEntity *)

Lemma DeleteEntity_run (en : Base) (s : S) :
  snapshot_convention h ->
  exists tr out s1,
    run h (DeleteEntity FormatMapper en) s = (tr, out, s1) /\
    DeleteRun en (FormatMapper (Type_ en) (ID en) "subscription") tr out.
Proof.
  intros Hconv. destruct (Hconv s) as [Htd _]. specialize (Htd en).
  unfold DeleteEntity. simpl.
  destruct (h (DeleteStateMarchin en) s) as [s1 [b [e|]]]; simpl in *.
  { eexists _, _, _. split; [done|]. apply delete_runtime_failed. }
  destruct b as [b|]; [|discriminate Htd].
  destruct (h (SearchDeleteByID (ID en)) s1) as [s2 [e|]]; simpl.
  { eexists _, _, _. split; [done|]. apply delete_search_failed. }
  destruct (h (DeleteState EntityStateName (ID en)) s2) as [s3 [e|]]; simpl.
  { eexists _, _, _. split; [done|]. apply delete_store_failed. }
  destruct (h (EtcdDelete _ true) s3) as [s4 [e|]]; simpl.
  { eexists _, _, _. split; [done|]. apply delete_registry_failed. }
  eexists _, _, _. split; [done|]. apply delete_done.
Qed.

(** C3: once the runtime keeps the convention of never answering nil
    with nil, DeleteEntity calls the runtime teardown, the search
    delete, the store delete and the registry prefix delete in that
    order; it stops at the first call that fails, hands back that
    error wrapped under the label of the failed step (the four labels
    differ) and calls nothing afterwards; when all four succeed it
    hands back the snapshot the teardown gave. *)
Theorem delete_pipeline (en : Base) (s : S) :
  snapshot_convention h ->
  let d := run h (DeleteEntity FormatMapper en) s in
  DeleteRun en (FormatMapper (Type_ en) (ID en) "subscription")
    (trace_of d) (outcome_of d) /\
  (forall e msg,
     outcome_of d = Returned (None, Some (Wrap e msg)) ->
     delete_labels !! (length (trace_of d) - 1) = Some msg) /\
  NoDup delete_labels.
Proof.
  intros Hconv. cbv zeta.
  destruct (DeleteEntity_run en s Hconv) as (tr & out & s1 & -> & Hrun).
  unfold trace_of, outcome_of. simpl.
  split; [done|]. split.
  - intros e msg ->. by inversion Hrun.
  - apply (bool_decide_unpack _). by vm_compute.
Qed.

(** *** Exclusive results *)

Lemma MutateRun_exclusive (en : Base) (rt : option error -> Event)
    (label : string) (tr : list Event) (out : Outcome Result) :
  MutateRun en rt label tr out ->
  forallb keeps_convention tr = true ->
  exclusive out.
Proof.
  destruct 1 as [e | tr r Hread]; [done|].
  cbn [forallb]. intros [_ Htr]%andb_prop.
  by apply (ReadRun_exclusive en tr r label).
Qed.

Lemma MapperRun_exclusive (en : Base) (ev : option error -> Mapper -> Event)
    (rt : option error -> Event) (label : string) (tr : list Event)
    (out : Outcome Result) :
  MapperRun en ev rt label tr out ->
  forallb keeps_convention tr = true ->
  exclusive out.
Proof.
  destruct 1 as [data e | data k mm e Hk | data e | data tr r Hread]; try done.
  cbn [forallb]. rewrite forallb_app. cbn [forallb].
  intros [_ [_ [_ Htr]%andb_prop]%andb_prop]%andb_prop.
  by apply (ReadRun_exclusive en tr r label).
Qed.

Lemma GetProperties_run (en : Base) (s : S) :
  exists tr r s1,
    run h (GetProperties en) s
    = (tr, Returned (wrap_result "entity GetProperties" r), s1) /\
    ReadRun en tr r.
Proof.
  unfold GetProperties.
  reread en s tr b err s1 Hread.
  by exists tr, (b, err), s1.
Qed.

(** C9: once the decoder and the runtime teardown keep the convention
    of never answering nil with nil, each of the eight operations
    hands back either a snapshot and no error or an error and no
    snapshot, on every input and whatever the collaborators answer. *)
Theorem results_are_exclusive (op : Operation) (s : S) :
  snapshot_convention h ->
  exclusive (outcome_of (run h (perform FormatMapper op) s)).
Proof.
  intros Hconv.
  pose proof (run_keeps_convention (perform FormatMapper op) s Hconv) as Htr.
  destruct op as [base|en|en|en|en|en pd|en|en]; cbn [perform] in *.
  - destruct (decide (ID base = "")) as [Hid|Hid].
    + destruct (CreateEntity_without_ID base s Hid)
        as (src & err & s1 & id & _ & -> & _).
      by destruct (createWithID_result (set_ID id base) s1)
        as (tr & r & s2 & -> & [-> | [e ->]]).
    + rewrite (CreateEntity_with_ID base s Hid).
      by destruct (createWithID_result base s)
        as (tr & r & s2 & -> & [-> | [e ->]]).
  - destruct (DeleteEntity_run en s Hconv) as (tr & out & s1 & -> & Hrun).
    by destruct Hrun.
  - destruct (GetProperties_run en s) as (tr & r & s1 & Hrun & Hread).
    rewrite Hrun in *.
    by apply (ReadRun_exclusive en tr r "entity GetProperties").
  - destruct (SetProperties_run en s) as (tr & out & s1 & Hrun & Hshape).
    rewrite Hrun in *. by eapply MutateRun_exclusive.
  - destruct (SetConfigs_run en s) as (tr & out & s1 & Hrun & Hshape).
    rewrite Hrun in *. by eapply MutateRun_exclusive.
  - destruct (PatchEntity_run en pd s) as (tr & out & s1 & Hrun & Hshape).
    rewrite Hrun in *. by eapply MutateRun_exclusive.
  - destruct (AppendMapper_run en s) as (tr & out & s1 & Hrun & Hshape).
    rewrite Hrun in *. by eapply MapperRun_exclusive.
  - destruct (RemoveMapper_run en s) as (tr & out & s1 & Hrun & Hshape).
    rewrite Hrun in *. by eapply MapperRun_exclusive.
Qed.

(** *** Empty reads *)

Lemma last_after (pre : list Event) (x : Event) (tr : list Event) :
  tr <> [] -> last (pre ++ x :: tr) = last tr.
Proof.
  intros Hne. rewrite last_app, last_cons.
  destruct (last tr) eqn:Hlast; [done|]. by apply last_None in Hlast.
Qed.

(** C10: in GetProperties and in the re-read that ends SetProperties,
    SetConfigs, PatchEntity, AppendMapper and RemoveMapper, a
    [GetState] that the store answers without error and with a nil item
    or a value of length zero makes the operation stop at that call and
    hand back no snapshot and [ErrEntityNotFound] (wrapped under the
    label of the operation, so that [errors.Is] finds it); the decoder
    is not called, neither on the empty value nor on anything else.
    [s1] is the state in which the read is issued, [s0] the one in which
    the runtime is called. *)
Theorem empty_read_is_not_found (en : Base) (patchData : list PatchData)
    (data : option StateItem) (s0 s1 s2 : S) :
  empty_item data = true ->
  h (GetState EntityStateName (ID en)) s1 = (s2, (data, None)) ->
  run h (getEntityFromState en) s1
  = ([getEv en (data, None)], Returned (None, Some ErrEntityNotFound), s2) /\
  run h (GetProperties en) s1
  = ([getEv en (data, None)],
     Returned (None, Some (Wrap ErrEntityNotFound "entity GetProperties")), s2) /\
  (h (RtSetProperties en) s0 = (s1, None) ->
   run h (SetProperties en) s0
   = ([Ev (RtSetProperties en) None; getEv en (data, None)],
      Returned (None, Some (Wrap ErrEntityNotFound "set entity properties")),
      s2)) /\
  (h (RtSetConfigs en) s0 = (s1, None) ->
   run h (SetConfigs en) s0
   = ([Ev (RtSetConfigs en) None; getEv en (data, None)],
      Returned (None, Some (Wrap ErrEntityNotFound "set entity configs")),
      s2)) /\
  (h (RtPatchEntity en patchData) s0 = (s1, None) ->
   run h (PatchEntity en patchData) s0
   = ([Ev (RtPatchEntity en patchData) None; getEv en (data, None)],
      Returned (None, Some (Wrap ErrEntityNotFound "patch entity properties")),
      s2)) /\
  (forall s sl d0 trl,
     h (GetState EntityStateName (ID en)) s = (sl, (d0, None)) ->
     run h (putMappers en (Mappers en)) sl = (trl, Returned None, s0) ->
     h (RtAppendMapper en) s0 = (s1, None) ->
     run h (AppendMapper en) s
     = (getEv en (d0, None)
        :: trl ++ [Ev (RtAppendMapper en) None; getEv en (data, None)],
        Returned (None, Some (Wrap ErrEntityNotFound "append mapper")), s2) /\
     never is_decode trl = true) /\
  (forall s sl d0 trl,
     h (GetState EntityStateName (ID en)) s = (sl, (d0, None)) ->
     run h (delMappers en (Mappers en)) sl = (trl, Returned None, s0) ->
     h (RtRemoveMapper en) s0 = (s1, None) ->
     run h (RemoveMapper en) s
     = (getEv en (d0, None)
        :: trl ++ [Ev (RtRemoveMapper en) None; getEv en (data, None)],
        Returned (None, Some (Wrap ErrEntityNotFound "remove mapper")), s2) /\
     never is_decode trl = true) /\
  (forall label,
     errors_Is (Some (Wrap ErrEntityNotFound label)) ErrEntityNotFound = true).
Proof.
  intros Hempty Hget.
  pose proof (getEntityFromState_empty en data s1 s2 Hempty Hget) as Hread.
  split; [done|]. split.
  { unfold GetProperties. by rewrite run_bind, Hread. }
  split.
  { intros Hrt. unfold SetProperties. rewrite run_bind, run_call, Hrt.
    unfold prepend. cbn [fst snd]. by rewrite run_bind, Hread. }
  split.
  { intros Hrt. unfold SetConfigs. rewrite run_bind, run_call, Hrt.
    unfold prepend. cbn [fst snd]. by rewrite run_bind, Hread. }
  split.
  { intros Hrt. unfold PatchEntity. rewrite run_bind, run_call, Hrt.
    unfold prepend. cbn [fst snd]. by rewrite run_bind, Hread. }
  split.
  { intros s sl d0 trl Hpre Hloop Hrt. split.
    - unfold AppendMapper. rewrite run_bind, run_call, Hpre.
      unfold prepend. cbn [fst snd]. rewrite run_bind, Hloop.
      unfold prepend. cbn [fst snd]. rewrite run_bind, run_call, Hrt.
      unfold prepend. cbn [fst snd]. rewrite run_bind, Hread.
      unfold prepend. cbn [fst snd run app]. rewrite ?app_nil_r. done.
    - destruct (putMappers_run en (Mappers en) sl)
        as [s' [Hok | (k & mm & e & _ & Hbad)]].
      + rewrite Hok in Hloop. injection Hloop as <- _. by apply never_fmap.
      + rewrite Hbad in Hloop. discriminate Hloop. }
  split.
  { intros s sl d0 trl Hpre Hloop Hrt. split.
    - unfold RemoveMapper. rewrite run_bind, run_call, Hpre.
      unfold prepend. cbn [fst snd]. rewrite run_bind, Hloop.
      unfold prepend. cbn [fst snd]. rewrite run_bind, run_call, Hrt.
      unfold prepend. cbn [fst snd]. rewrite run_bind, Hread.
      unfold prepend. cbn [fst snd run app]. rewrite ?app_nil_r. done.
    - destruct (delMappers_run en (Mappers en) sl)
        as [s' [Hok | (k & mm & e & _ & Hbad)]].
      + rewrite Hok in Hloop. injection Hloop as <- _. by apply never_fmap.
      + rewrite Hbad in Hloop. discriminate Hloop. }
  done.
Qed.

End Runs.

(** ** Runs against the scripted collaborators *)

Lemma scripted_convention (sc : Script) :
  (forall en, nil_nil (sc_teardown sc en) = false) ->
  (forall data, nil_nil (sc_decode sc data) = false) ->
  snapshot_convention (scripted sc).
Proof. intros Htd Hdec []. by split. Qed.

(** C1: what lines 100-106 do with the three outcomes of the probe.  On
    a store that holds nothing under "dev-1" the probe reports
    [ErrEntityNotFound] and create stops with that error after the one
    read; on a store that holds the entity, and on a store whose reads
    fail, create goes on and hands back the snapshot. *)
Theorem create_probe_is_inverted :
  run (scripted empty_store) (CreateEntity dev1) tt
  = ([getEv dev1 (Some {| Key := "dev-1"; Value := [] |}, None)],
     Returned (None, Some ErrEntityNotFound), tt) /\
  outcome_of (run (scripted all_good) (CreateEntity dev1) tt)
  = Returned (Some dev1, None) /\
  outcome_of (run (scripted store_read_fails) (CreateEntity dev1) tt)
  = Returned (Some dev1, None).
Proof. by repeat split. Qed.

(** C2: create on an [ID] the store already holds.  The probe reads and
    decodes the stored snapshot, then create encodes, overwrites the
    stored value, notifies the runtime and returns the snapshot without
    error. *)
Theorem create_existing_overwrites :
  let x := run (scripted all_good) (CreateEntity dev1) tt in
  outcome_of x = Returned (Some dev1, None) /\
  ev_call <$> trace_of x
  = [GetState "core-state" "dev-1"; DecodeBase blob; EncodeBase dev1;
     SaveState "core-state" "dev-1" blob;
     SendMsg {| StateID := "dev-1"; Operator := "replace" |}] /\
  never is_store_write (trace_of x) = false /\
  never is_runtime_call (trace_of x) = false.
Proof. by repeat split. Qed.

(** C5: mapper management on an entity the store does not hold.  The
    pre-check looks at the error of [GetState] only, so an item without
    value passes it: both registry keys are written (or deleted) and the
    runtime is called before the final re-read reports
    [ErrEntityNotFound]. *)
Theorem mapper_precheck_ignores_empty_item :
  let nothing := (Some {| Key := "dev-1"; Value := [] |}, None) in
  run (scripted empty_store) (AppendMapper dev1) tt
  = ([getEv dev1 nothing; putEv dev1 None rule1; putEv dev1 None rule2;
      Ev (RtAppendMapper dev1) None; getEv dev1 nothing],
     Returned (None, Some (Wrap ErrEntityNotFound "append mapper")), tt) /\
  run (scripted empty_store) (RemoveMapper dev1) tt
  = ([getEv dev1 nothing; delEv dev1 None rule1; delEv dev1 None rule2;
      Ev (RtRemoveMapper dev1) None; getEv dev1 nothing],
     Returned (None, Some (Wrap ErrEntityNotFound "remove mapper")), tt).
Proof. by split. Qed.

(** C8, counterexample: with a randomness source that fails, [uuid]
    hands back the empty identifier, and create on a snapshot without
    [ID] succeeds with the [ID] still empty. *)
Lemma uuid_rand_failure_counterexample :
  outcome_of (run (scripted rand_down) uuid tt) = Returned "" /\
  outcome_of (run (scripted rand_down) (CreateEntity anon) tt)
  = Returned (Some anon, None).
Proof. by split. Qed.

Lemma uuid_rand_failure_is_silent_witness :
  scripted rand_down (RandRead 16) tt
  = (tt, ([], Some (ErrOpaque "entropy unavailable"))) /\
  run (scripted rand_down) uuid tt
  = ([Ev (RandRead 16) ([], Some (ErrOpaque "entropy unavailable"))],
     Returned "", tt).
Proof.
  split; [reflexivity|].
  exact (proj1 (uuid_rand_failure_is_silent (scripted rand_down) anon tt tt []
                  (ErrOpaque "entropy unavailable") eq_refl)).
Defined.

Lemma create_assigns_uuid_witness :
  ID anon = "" /\
  scripted all_good (RandRead 16) tt = (tt, (sixteen, None)) /\
  exists id,
    uuid_format id /\
    run (scripted all_good) (CreateEntity anon) tt
    = prepend [Ev (RandRead 16) (sixteen, None)]
        (run (scripted all_good) (createWithID (set_ID id anon)) tt) /\
    forall b err,
      outcome_of (run (scripted all_good) (CreateEntity anon) tt)
      = Returned (Some b, err) ->
      ID b = id.
Proof.
  split; [reflexivity|]. split; [reflexivity|].
  apply (create_assigns_uuid (scripted all_good) anon tt tt sixteen);
    reflexivity.
Defined.

Lemma delete_pipeline_witness :
  snapshot_convention (scripted second_rule_refused) /\
  DeleteRun dev1 (sampleFormat "device" "dev-1" "subscription")
    (trace_of (run (scripted second_rule_refused)
                 (DeleteEntity sampleFormat dev1) tt))
    (outcome_of (run (scripted second_rule_refused)
                   (DeleteEntity sampleFormat dev1) tt)).
Proof.
  assert (Hconv : snapshot_convention (scripted second_rule_refused)).
  { apply scripted_convention; intros; reflexivity. }
  split; [exact Hconv|].
  exact (proj1 (delete_pipeline (scripted second_rule_refused) sampleFormat
                  dev1 tt Hconv)).
Defined.

Lemma mapper_registry_calls_witness :
  existsb registry_refused
    (trace_of (run (scripted second_rule_refused) (AppendMapper dev1) tt))
  = true /\
  never is_runtime_call
    (trace_of (run (scripted second_rule_refused) (AppendMapper dev1) tt))
  = true.
Proof.
  split; [reflexivity|].
  destruct (mapper_registry_calls (scripted second_rule_refused) dev1 tt)
    as (_ & _ & Happend & _).
  destruct (Happend eq_refl) as (data & k & mm & e & _ & _ & _ & Hnever & _).
  exact Hnever.
Defined.

Lemma results_are_exclusive_witness :
  snapshot_convention (scripted all_good) /\
  exclusive (outcome_of (run (scripted all_good)
                           (perform sampleFormat (OpDelete dev1)) tt)).
Proof.
  assert (Hconv : snapshot_convention (scripted all_good)).
  { apply scripted_convention; intros; reflexivity. }
  split; [exact Hconv|].
  exact (results_are_exclusive (scripted all_good) sampleFormat
           (OpDelete dev1) tt Hconv).
Defined.

Lemma empty_read_is_not_found_witness :
  empty_item (Some {| Key := "dev-1"; Value := [] |}) = true /\
  scripted empty_store (GetState EntityStateName (ID dev1)) tt
  = (tt, (Some {| Key := "dev-1"; Value := [] |}, None)) /\
  scripted empty_store (RtSetConfigs dev1) tt = (tt, None) /\
  run (scripted empty_store) (SetConfigs dev1) tt
  = ([Ev (RtSetConfigs dev1) None;
      getEv dev1 (Some {| Key := "dev-1"; Value := [] |}, None)],
     Returned (None, Some (Wrap ErrEntityNotFound "set entity configs")), tt).
Proof.
  split; [reflexivity|]. split; [reflexivity|]. split; [reflexivity|].
  exact (proj1 (proj2 (proj2 (proj2
    (empty_read_is_not_found (scripted empty_store) dev1 []
       (Some {| Key := "dev-1"; Value := [] |}) tt tt tt eq_refl eq_refl))))
    eq_refl).
Defined.

(** * Further properties *)

Section More.

Context {S : Type} (h : Handler S).
Variable FormatMapper : string -> string -> string -> string.

(** ** Shapes of create and of delete *)

Lemma createWithID_run (base : Base) (s : S) :
  exists tr r s1,
    run h (createWithID base) s = (tr, Returned r, s1) /\ CreateRun base tr r.
Proof.
  unfold createWithID. rewrite run_bind.
  destruct (getEntityFromState_run h base s) as (tr & [b err] & s1 & -> & Hread).
  unfold prepend.
  destruct (errors_Is err ErrEntityNotFound) eqn:His; simpl.
  - destruct err as [e|]; [|discriminate His]. rewrite app_nil_r.
    eexists _, _, _. split; [done|].
    by apply (create_probe_not_found base tr (b, Some e)).
  - destruct (h (EncodeBase base) s1) as [s2 [data [e|]]]; simpl.
    { eexists _, _, _. split; [done|].
      by apply (create_encode_failed base tr (b, err)). }
    destruct (h (SaveState EntityStateName (ID base) data) s2) as [s3 [e|]]; simpl.
    { eexists _, _, _. split; [done|].
      by apply (create_save_failed base tr (b, err)). }
    destruct (h (SendMsg _) s3) as [s4 []]; simpl.
    eexists _, _, _. split; [done|].
    by apply (create_done base tr (b, err)).
Qed.

Lemma DeleteEntity_steps (en : Base) (s : S) :
  exists tr out s1,
    run h (DeleteEntity FormatMapper en) s = (tr, out, s1) /\
    DeleteSteps en (FormatMapper (Type_ en) (ID en) "subscription") tr out.
Proof.
  unfold DeleteEntity. simpl.
  destruct (h (DeleteStateMarchin en) s) as [s1 [b [e|]]]; simpl.
  { eexists _, _, _. split; [done|]. apply steps_runtime_failed. }
  destruct (h (SearchDeleteByID (ID en)) s1) as [s2 [e|]]; simpl.
  { eexists _, _, _. split; [done|]. apply steps_search_failed. }
  destruct (h (DeleteState EntityStateName (ID en)) s2) as [s3 [e|]]; simpl.
  { eexists _, _, _. split; [done|]. apply steps_store_failed. }
  destruct (h (EtcdDelete _ true) s3) as [s4 [e|]]; simpl.
  - eexists _, _, _. split.
    2: apply (steps_registry_failed en _ b e).
    by destruct b.
  - eexists _, _, _. split; [done|]. apply steps_done.
Qed.

(** ** What holds of every call of a shape *)

Lemma ReadRun_Forall (P : Event -> Prop) (en : Base) (tr : list Event)
    (r : Result) :
  (forall x, P (getEv en x)) ->
  (forall data x, P (decodeEv data x)) ->
  ReadRun en tr r -> Forall P tr.
Proof. intros Hget Hdec []; repeat constructor; auto. Qed.

Lemma MutateRun_Forall (P : Event -> Prop) (en : Base)
    (rt : option error -> Event) (label : string) (tr : list Event)
    (out : Outcome Result) :
  (forall err, P (rt err)) ->
  (forall x, P (getEv en x)) ->
  (forall data x, P (decodeEv data x)) ->
  MutateRun en rt label tr out -> Forall P tr.
Proof.
  intros Hrt Hget Hdec [e | tr' r Hread]; constructor; auto.
  by eapply ReadRun_Forall.
Qed.

Lemma MapperRun_Forall (P : Event -> Prop) (en : Base)
    (ev : option error -> Mapper -> Event) (rt : option error -> Event)
    (label : string) (tr : list Event) (out : Outcome Result) :
  (forall err mm, mm ∈ Mappers en -> P (ev err mm)) ->
  (forall err, P (rt err)) ->
  (forall x, P (getEv en x)) ->
  (forall data x, P (decodeEv data x)) ->
  MapperRun en ev rt label tr out -> Forall P tr.
Proof.
  intros Hev Hrt Hget Hdec.
  assert (Hall : forall ms, ms ⊆ Mappers en -> Forall P (ev None <$> ms)).
  { intros ms Hsub. apply Forall_fmap, Forall_forall. intros mm Hmm.
    apply Hev. by apply Hsub. }
  intros [data e | data k mm e Hk | data e | data tr' r Hread];
    constructor; auto.
  - apply Forall_app. split.
    + apply Hall, subseteq_take.
    + repeat constructor. apply Hev. by eapply list_elem_of_lookup_2.
  - apply Forall_app. split; [by apply Hall|]. repeat constructor. auto.
  - apply Forall_app. split; [by apply Hall|]. constructor; auto.
    by eapply ReadRun_Forall.
Qed.

Lemma CreateRun_Forall (P : Event -> Prop) (base : Base) (tr : list Event)
    (r : Result) :
  (forall x, P (getEv base x)) ->
  (forall data x, P (decodeEv data x)) ->
  (forall x, P (Ev (EncodeBase base) x)) ->
  (forall data x, P (Ev (SaveState EntityStateName (ID base) data) x)) ->
  P (Ev (SendMsg {| StateID := ID base; Operator := "replace" |}) tt) ->
  CreateRun base tr r -> Forall P tr.
Proof.
  intros Hget Hdec Henc Hsave Hsend [tr' r' Hread _ | tr' r' data e Hread _
    | tr' r' data e Hread _ | tr' r' data Hread _];
    pose proof (ReadRun_Forall P base tr' r' Hget Hdec Hread) as Hpre;
    [done|..]; (apply Forall_app; split; [done|]); repeat constructor; auto.
Qed.

Lemma CreateEntity_generates (base : Base) (s : S) :
  ID base = "" ->
  exists ev id s1,
    run h uuid s = ([ev], Returned id, s1) /\
    ev_call ev = RandRead 16 /\
    run h (CreateEntity base) s
    = prepend [ev] (run h (createWithID (set_ID id base)) s1).
Proof.
  intros Hid.
  destruct (uuid_run h s) as (src & err & s1 & id & _ & Hrun & _).
  exists (Ev (RandRead 16) (src, err)), id, s1.
  split; [done|]. split; [done|].
  unfold CreateEntity. rewrite Hid. simpl String.eqb. cbv iota.
  rewrite !run_bind, Hrun. unfold prepend. simpl.
  by destruct (run h (createWithID (set_ID id base)) s1) as [[tr o] s2].
Qed.

(** X1: whatever the collaborators answer, an operation makes only the
    calls its body names, with the arguments its body gives them.
    Create reads sixteen random bytes only when it was given no [ID];
    it then works on the snapshot with the identifier [uuid] returned
    and calls nothing but [GetState] and [SaveState] on that snapshot's
    [ID] in "core-state", the decoder, the encoder on that snapshot and
    the "replace" notification for that [ID].  Delete calls nothing but
    the runtime teardown, the search delete of the [ID], the store
    delete of the entity's key and the prefix delete of the
    subscription key.  GetProperties calls nothing but [GetState] on
    the entity's key and the decoder; a mutation may call its own
    runtime function besides; AppendMapper puts only the key and rule
    of its own mappers, RemoveMapper deletes only the keys of its own
    mappers. *)
Theorem operations_make_permitted_calls (op : Operation) (s : S) :
  exists target,
    (is_create op = false \/ ID (entity_of op) <> "" -> target = entity_of op) /\
    (is_create op = true -> ID (entity_of op) = "" ->
     exists id tr s1,
       run h uuid s = (tr, Returned id, s1) /\
       target = set_ID id (entity_of op)) /\
    Forall (fun e => permitted FormatMapper op target (ev_call e))
      (trace_of (run h (perform FormatMapper op) s)).
Proof.
  destruct op as [base|en|en|en|en|en pd|en|en]; cbn [perform entity_of].
  - destruct (decide (ID base = "")) as [Hid|Hid].
    + destruct (CreateEntity_generates base s Hid)
        as (ev & id & s1 & Huuid & Hev & ->).
      exists (set_ID id base). split; [by intros [[=]|?]|].
      split; [intros _ _; by exists id, [ev], s1|].
      destruct (createWithID_run (set_ID id base) s1)
        as (tr & r & s2 & -> & Hrun).
      unfold trace_of, prepend. cbn [fst snd app].
      constructor; [by cbn; rewrite Hev|].
      by apply (CreateRun_Forall _ (set_ID id base) tr r).
    + exists base. split; [done|]. split; [by intros _ ?|].
      rewrite (CreateEntity_with_ID h base s Hid).
      destruct (createWithID_run base s) as (tr & r & s2 & -> & Hrun).
      by apply (CreateRun_Forall _ base tr r).
  - exists en. split; [done|]. split; [by intros [=]|].
    destruct (DeleteEntity_steps en s) as (tr & out & s1 & -> & Hrun).
    destruct Hrun; repeat constructor.
  - exists en. split; [done|]. split; [by intros [=]|].
    destruct (GetProperties_run h en s) as (tr & r & s1 & -> & Hread).
    by apply (ReadRun_Forall _ en tr r).
  - exists en. split; [done|]. split; [by intros [=]|].
    destruct (SetProperties_run h en s) as (tr & out & s1 & -> & Hrun).
    by eapply MutateRun_Forall; [| | |apply Hrun].
  - exists en. split; [done|]. split; [by intros [=]|].
    destruct (SetConfigs_run h en s) as (tr & out & s1 & -> & Hrun).
    by eapply MutateRun_Forall; [| | |apply Hrun].
  - exists en. split; [done|]. split; [by intros [=]|].
    destruct (PatchEntity_run h en pd s) as (tr & out & s1 & -> & Hrun).
    by eapply MutateRun_Forall; [| | |apply Hrun].
  - exists en. split; [done|]. split; [by intros [=]|].
    destruct (AppendMapper_run h en s) as (tr & out & s1 & -> & Hrun).
    eapply MapperRun_Forall; [| | | |apply Hrun]; try done.
    intros err mm Hmm. by exists mm.
  - exists en. split; [done|]. split; [by intros [=]|].
    destruct (RemoveMapper_run h en s) as (tr & out & s1 & -> & Hrun).
    eapply MapperRun_Forall; [| | | |apply Hrun]; try done.
    intros err mm Hmm. split; [done|]. by exists mm.
Qed.

(** ** Bounded runs *)

Lemma ReadRun_length (en : Base) (tr : list Event) (r : Result) :
  ReadRun en tr r -> length tr <= 2.
Proof. destruct 1; simpl; lia. Qed.

(** X2: an operation makes a bounded number of collaborator calls: at
    most six for create, four for delete, two for GetProperties, three
    for the mutations, and the number of mappers plus four for
    AppendMapper and RemoveMapper. *)
Theorem calls_are_bounded (op : Operation) (s : S) :
  length (trace_of (run h (perform FormatMapper op) s)) <= call_bound op.
Proof.
  destruct op as [base|en|en|en|en|en pd|en|en]; cbn [perform call_bound].
  - assert (Hrest : forall b s', length (trace_of (run h (createWithID b) s')) <= 5).
    { intros b s'. destruct (createWithID_run b s') as (tr & r & s2 & -> & Hrun).
      unfold trace_of. cbn [fst].
      destruct Hrun as [tr r Hread _ | tr r data e Hread _
        | tr r data e Hread _ | tr r data Hread _];
        apply ReadRun_length in Hread; rewrite ?length_app; simpl; lia. }
    destruct (decide (ID base = "")) as [Hid|Hid].
    + destruct (CreateEntity_without_ID h base s Hid)
        as (src & err & s1 & id & _ & -> & _).
      specialize (Hrest (set_ID id base) s1).
      unfold trace_of, prepend in *. cbn [fst snd app length] in *. lia.
    + rewrite (CreateEntity_with_ID h base s Hid). specialize (Hrest base s). lia.
  - destruct (DeleteEntity_steps en s) as (tr & out & s1 & -> & Hrun).
    destruct Hrun; simpl; lia.
  - destruct (GetProperties_run h en s) as (tr & r & s1 & -> & Hread).
    by apply ReadRun_length in Hread.
  - destruct (SetProperties_run h en s) as (tr & out & s1 & -> & Hrun).
    destruct Hrun as [e | tr r Hread]; [simpl; lia|].
    apply ReadRun_length in Hread. unfold trace_of. simpl. lia.
  - destruct (SetConfigs_run h en s) as (tr & out & s1 & -> & Hrun).
    destruct Hrun as [e | tr r Hread]; [simpl; lia|].
    apply ReadRun_length in Hread. unfold trace_of. simpl. lia.
  - destruct (PatchEntity_run h en pd s) as (tr & out & s1 & -> & Hrun).
    destruct Hrun as [e | tr r Hread]; [simpl; lia|].
    apply ReadRun_length in Hread. unfold trace_of. simpl. lia.
  - destruct (AppendMapper_run h en s) as (tr & out & s1 & -> & Hrun).
    unfold trace_of. cbn [fst].
    destruct Hrun as [data e | data k mm e Hk | data e | data tr r Hread];
      try apply ReadRun_length in Hread;
      cbn [length]; rewrite ?length_app, ?length_fmap, ?length_take;
      cbn [length]; lia.
  - destruct (RemoveMapper_run h en s) as (tr & out & s1 & -> & Hrun).
    unfold trace_of. cbn [fst].
    destruct Hrun as [data e | data k mm e Hk | data e | data tr r Hread];
      try apply ReadRun_length in Hread;
      cbn [length]; rewrite ?length_app, ?length_fmap, ?length_take;
      cbn [length]; lia.
Qed.

(** ** Only the last call fails *)

Lemma ReadRun_stops (en : Base) (tr : list Event) (r : Result) :
  ReadRun en tr r -> stops_at_failure tr (r.2 = None).
Proof.
  intros [data e | data Hempty | item b e Hitem | item b Hitem].
  - exists [], (getEv en (data, Some e)). repeat split; try done. by intros [[=] _].
  - exists [], (getEv en (data, None)). repeat split; try done.
    simpl. rewrite Hempty. by intros [_ [=]].
  - exists [getEv en (Some item, None)], (decodeEv (Value item) (b, Some e)).
    repeat split; try done. by intros [[=] _].
  - by exists [getEv en (Some item, None)], (decodeEv (Value item) (b, None)).
Qed.

Lemma stops_cons (e : Event) (tr : list Event) (P : Prop) :
  failed e = false -> stops_at_failure tr P -> stops_at_failure (e :: tr) P.
Proof.
  intros He (pre & lst & -> & Hpre & Hiff).
  exists (e :: pre), lst. split; [done|]. split; [|done].
  simpl. by rewrite He, Hpre.
Qed.

Lemma stops_app (l tr : list Event) (P : Prop) :
  existsb failed l = false -> stops_at_failure tr P ->
  stops_at_failure (l ++ tr) P.
Proof.
  intros Hl (pre & lst & -> & Hpre & Hiff).
  exists (l ++ pre), lst. split; [by rewrite app_assoc|]. split; [|done].
  by rewrite existsb_app, Hl, Hpre.
Qed.

Lemma stops_failed (pre : list Event) (lst : Event) (P : Prop) :
  existsb failed pre = false -> failed lst = true -> ~ P ->
  stops_at_failure (pre ++ [lst]) P.
Proof.
  intros Hpre Hlst HP. exists pre, lst. repeat split; try done.
  rewrite Hlst. by intros [[=] _].
Qed.

Lemma no_error_wrap (label : string) (r : Result) :
  (exists b, Returned (wrap_result label r) = Returned (b, None)) <-> r.2 = None.
Proof.
  destruct r as [b [e|]]; simpl; split; try done.
  - by intros [b' [=]].
  - by exists b.
Qed.

Lemma MutateRun_stops (en : Base) (rt : option error -> Event) (label : string)
    (tr : list Event) (out : Outcome Result) :
  failed (rt None) = false ->
  (forall e, failed (rt (Some e)) = true) ->
  MutateRun en rt label tr out ->
  stops_at_failure tr (exists b, out = Returned (b, None)).
Proof.
  intros Hok Hbad [e | tr' r Hread].
  - apply (stops_failed [] (rt (Some e))); try done. by intros [b [=]].
  - apply stops_cons; [done|].
    destruct (ReadRun_stops en tr' r Hread) as (pre & lst & -> & Hpre & Hiff).
    exists pre, lst. split; [done|]. split; [done|].
    etrans; [apply no_error_wrap | exact Hiff].
Qed.

Lemma MapperRun_stops (en : Base) (ev : option error -> Mapper -> Event)
    (rt : option error -> Event) (label : string) (tr : list Event)
    (out : Outcome Result) :
  (forall mm, failed (ev None mm) = false) ->
  (forall e mm, failed (ev (Some e) mm) = true) ->
  failed (rt None) = false ->
  (forall e, failed (rt (Some e)) = true) ->
  MapperRun en ev rt label tr out ->
  stops_at_failure tr (exists b, out = Returned (b, None)).
Proof.
  intros Hev Hevbad Hok Hbad
    [data e | data k mm e Hk | data e | data tr' r Hread].
  - apply (stops_failed [] (getEv en (data, Some e))); try done. by intros [b [=]].
  - rewrite app_comm_cons. apply stops_failed; [|done|by intros [b [=]]].
    simpl. by apply existsb_fmap_false.
  - rewrite app_comm_cons. apply stops_failed; [|done|by intros [b [=]]].
    simpl. by apply existsb_fmap_false.
  - apply stops_cons; [done|]. apply stops_app; [by apply existsb_fmap_false|].
    apply stops_cons; [done|].
    destruct (ReadRun_stops en tr' r Hread) as (pre & lst & -> & Hpre & Hiff).
    exists pre, lst. split; [done|]. split; [done|].
    etrans; [apply no_error_wrap | exact Hiff].
Qed.

(** X3: in every operation but create a failed call is the last call:
    all calls before the last one succeeded.  The operation hands back
    no error exactly when its last call succeeded too and was not a
    read of an empty item. *)
Theorem only_the_last_call_fails (op : Operation) (s : S) :
  is_create op = false ->
  let x := run h (perform FormatMapper op) s in
  exists pre lst,
    trace_of x = pre ++ [lst] /\ existsb failed pre = false /\
    ((exists b, outcome_of x = Returned (b, None)) <->
     failed lst = false /\ is_empty_read lst = false).
Proof.
  intros Hop. cbv zeta.
  change (stops_at_failure (trace_of (run h (perform FormatMapper op) s))
            (exists b, outcome_of (run h (perform FormatMapper op) s)
                       = Returned (b, None))).
  destruct op as [base|en|en|en|en|en pd|en|en]; try discriminate Hop;
    cbn [perform].
  - destruct (DeleteEntity_steps en s) as (tr & out & s1 & -> & Hrun).
    unfold trace_of, outcome_of. cbn [fst snd].
    destruct Hrun as [b e | b e | b e | b e | b].
    + apply (stops_failed [] (Ev (DeleteStateMarchin en) (b, Some e)));
        try done. by intros [b' [=]].
    + apply (stops_failed [_] (Ev (SearchDeleteByID (ID en)) (Some e)));
        try done. by intros [b' [=]].
    + apply (stops_failed [_; _]
               (Ev (DeleteState EntityStateName (ID en)) (Some e)));
        try done. by intros [b' [=]].
    + apply (stops_failed [_; _; _] (Ev (EtcdDelete _ true) (Some e)));
        try done. by destruct b; intros [b' [=]].
    + exists [Ev (DeleteStateMarchin en) (b, None);
              Ev (SearchDeleteByID (ID en)) None;
              Ev (DeleteState EntityStateName (ID en)) None],
        (Ev (EtcdDelete (FormatMapper (Type_ en) (ID en) "subscription") true) None).
      repeat split; try done. by exists b.
  - destruct (GetProperties_run h en s) as (tr & r & s1 & -> & Hread).
    unfold trace_of, outcome_of. cbn [fst snd].
    destruct (ReadRun_stops en tr r Hread) as (pre & lst & -> & Hpre & Hiff).
    exists pre, lst. split; [done|]. split; [done|].
    etrans; [apply no_error_wrap | exact Hiff].
  - destruct (SetProperties_run h en s) as (tr & out & s1 & -> & Hrun).
    by eapply MutateRun_stops; [| |apply Hrun].
  - destruct (SetConfigs_run h en s) as (tr & out & s1 & -> & Hrun).
    by eapply MutateRun_stops; [| |apply Hrun].
  - destruct (PatchEntity_run h en pd s) as (tr & out & s1 & -> & Hrun).
    by eapply MutateRun_stops; [| |apply Hrun].
  - destruct (AppendMapper_run h en s) as (tr & out & s1 & -> & Hrun).
    by eapply MapperRun_stops; [| | | |apply Hrun].
  - destruct (RemoveMapper_run h en s) as (tr & out & s1 & -> & Hrun).
    by eapply MapperRun_stops; [| | | |apply Hrun].
Qed.

(** ** Create: what a success wrote, what a failure left *)

Lemma ReadRun_quiet (en : Base) (tr : list Event) (r : Result) :
  ReadRun en tr r ->
  never is_runtime_call tr = true /\ never is_store_write tr = true.
Proof. by destruct 1. Qed.

(** X4: when create hands back a snapshot there is no error, the
    snapshot is the input with its [ID] settled, and the run ended with
    the encoding of that snapshot, the write of exactly the encoded
    bytes under the snapshot's [ID] in "core-state", and the "replace"
    notification for the same [ID], all three successful. *)
Theorem create_saves_what_it_encodes (base b : Base) (err : option error)
    (s : S) :
  outcome_of (run h (CreateEntity base) s) = Returned (Some b, err) ->
  err = None /\ b = set_ID (ID b) base /\ (ID base <> "" -> b = base) /\
  exists pre data,
    trace_of (run h (CreateEntity base) s)
    = pre ++ [Ev (EncodeBase b) (data, None);
              Ev (SaveState EntityStateName (ID b) data) None;
              Ev (SendMsg {| StateID := ID b; Operator := "replace" |}) tt].
Proof.
  assert (Hrest : forall base' s',
    outcome_of (run h (createWithID base') s') = Returned (Some b, err) ->
    err = None /\ b = base' /\
    exists pre data,
      trace_of (run h (createWithID base') s')
      = pre ++ [Ev (EncodeBase b) (data, None);
                Ev (SaveState EntityStateName (ID b) data) None;
                Ev (SendMsg {| StateID := ID b; Operator := "replace" |}) tt]).
  { intros base' s'.
    destruct (createWithID_run base' s') as (tr & r & s2 & -> & Hrun).
    unfold outcome_of, trace_of. cbn [fst snd].
    destruct Hrun as [tr r Hread _ | tr r data e Hread _
      | tr r data e Hread _ | tr r data Hread _]; intros [= <- <-].
    split; [done|]. split; [done|]. by exists tr, data. }
  destruct (decide (ID base = "")) as [Hid|Hid].
  - destruct (CreateEntity_without_ID h base s Hid)
      as (src & e & s1 & id & _ & -> & _).
    unfold outcome_of, trace_of, prepend. cbn [fst snd]. intros Hout.
    destruct (Hrest (set_ID id base) s1 Hout) as (-> & -> & pre & data & Htr).
    split; [done|]. split; [done|]. split; [done|].
    exists (Ev (RandRead 16) (src, e) :: pre), data.
    unfold trace_of in Htr. by rewrite Htr.
  - rewrite (CreateEntity_with_ID h base s Hid). intros Hout.
    destruct (Hrest base s Hout) as (-> & -> & pre & data & Htr).
    split; [done|]. split; [by rewrite set_ID_same|]. split; [done|].
    by exists pre, data.
Qed.

(** X5: when create hands back an error the runtime has not been
    notified, and no write to the store has succeeded: the only write a
    failed create can have made is the [SaveState] that failed. *)
Theorem failed_create_wrote_nothing (base : Base) (e : error) (s : S) :
  outcome_of (run h (CreateEntity base) s) = Returned (None, Some e) ->
  never is_runtime_call (trace_of (run h (CreateEntity base) s)) = true /\
  forallb (fun ev => negb (is_store_write (ev_call ev)) || failed ev)
    (trace_of (run h (CreateEntity base) s)) = true.
Proof.
  assert (Hrest : forall base' s',
    outcome_of (run h (createWithID base') s') = Returned (None, Some e) ->
    never is_runtime_call (trace_of (run h (createWithID base') s')) = true /\
    forallb (fun ev => negb (is_store_write (ev_call ev)) || failed ev)
      (trace_of (run h (createWithID base') s')) = true).
  { intros base' s'.
    destruct (createWithID_run base' s') as (tr & r & s2 & -> & Hrun).
    unfold outcome_of, trace_of. cbn [fst snd].
    destruct Hrun as [tr r Hread _ | tr r data e' Hread _
      | tr r data e' Hread _ | tr r data Hread _]; intros [=];
      destruct Hread; by split. }
  destruct (decide (ID base = "")) as [Hid|Hid].
  - destruct (CreateEntity_without_ID h base s Hid)
      as (src & err & s1 & id & _ & -> & _).
    unfold outcome_of, trace_of, prepend in *. cbn [fst snd] in *.
    intros Hout. destruct (Hrest (set_ID id base) s1 Hout) as [Hrt Hwr].
    unfold never in *. cbn [app forallb]. by rewrite Hrt, Hwr.
  - rewrite (CreateEntity_with_ID h base s Hid). apply Hrest.
Qed.

(** ** Not found is reported for empty reads only *)

(** [errors.Is] looks through the label [errors.Wrap] adds. *)
Lemma errors_Is_Wrap (err : option error) (msg : string) (target : error) :
  errors_Is (errors_Wrap err msg) target = errors_Is err target.
Proof. destruct err as [e|]; [|done]. simpl. by destruct target. Qed.

Lemma ReadRun_not_found (en : Base) (tr : list Event) (r : Result) :
  ReadRun en tr r ->
  forallb answers_clean tr = true ->
  errors_Is r.2 ErrEntityNotFound = true ->
  is_empty_read <$> last tr = Some true.
Proof.
  intros [data e | data Hempty | item b e Hitem | item b Hitem];
    unfold answers_clean; simpl.
  - intros Hclean His. by rewrite His in Hclean.
  - by rewrite Hempty.
  - intros Hclean His. by rewrite His in Hclean.
  - done.
Qed.

Lemma MutateRun_not_found (en : Base) (rt : option error -> Event)
    (label : string) (tr : list Event) (b : option Base) (e : error) :
  (forall err, ev_error (rt err) = err) ->
  MutateRun en rt label tr (Returned (b, Some e)) ->
  forallb answers_clean tr = true ->
  errors_Is (Some e) ErrEntityNotFound = true ->
  is_empty_read <$> last tr = Some true.
Proof.
  intros Hrt Hrun. inversion Hrun as [e' | tr' r Hread]; subst.
  - unfold answers_clean. simpl. rewrite Hrt. simpl.
    intros Hclean His. by rewrite His in Hclean.
  - cbn [forallb]. intros [_ Hclean]%andb_prop His.
    change (rt None :: tr') with ([] ++ rt None :: tr').
    rewrite last_after by by eapply ReadRun_nonempty.
    apply (ReadRun_not_found en tr' r Hread Hclean).
    destruct r as [b' err]. simpl in *. subst.
    by rewrite <- (errors_Is_Wrap err label).
Qed.

Lemma MapperRun_not_found (en : Base) (ev : option error -> Mapper -> Event)
    (rt : option error -> Event) (label : string) (tr : list Event)
    (b : option Base) (e : error) :
  (forall err mm, ev_error (ev err mm) = err) ->
  (forall err, ev_error (rt err) = err) ->
  MapperRun en ev rt label tr (Returned (b, Some e)) ->
  forallb answers_clean tr = true ->
  errors_Is (Some e) ErrEntityNotFound = true ->
  is_empty_read <$> last tr = Some true.
Proof.
  intros Hev Hrt Hrun.
  inversion Hrun as [data e' | data k mm e' Hk | data e' | data tr' r Hread];
    subst.
  - unfold answers_clean. simpl. intros Hclean His. by rewrite His in Hclean.
  - cbn [forallb]. rewrite forallb_app. cbn [forallb]. unfold answers_clean at 3.
    rewrite Hev. simpl. intros Hclean His. rewrite His in Hclean.
    by rewrite !andb_false_r in Hclean.
  - cbn [forallb]. rewrite forallb_app. cbn [forallb]. unfold answers_clean at 3.
    rewrite Hrt. simpl. intros Hclean His. rewrite His in Hclean.
    by rewrite !andb_false_r in Hclean.
  - cbn [forallb]. rewrite forallb_app. cbn [forallb].
    intros [_ [_ [_ Hclean]%andb_prop]%andb_prop]%andb_prop His.
    rewrite app_comm_cons, last_after by by eapply ReadRun_nonempty.
    apply (ReadRun_not_found en tr' r Hread Hclean).
    destruct r as [b' err]. simpl in *. subst.
    by rewrite <- (errors_Is_Wrap err label).
Qed.

(** X6: the converse of the empty-read rule.  When no collaborator
    hands back an error that has [ErrEntityNotFound] in its chain, then
    GetProperties and the five operations that end with a re-read
    report an error that [errors.Is] takes for [ErrEntityNotFound] only
    when their last call was a [GetState] that found nothing; a failure
    of the store, of the decoder, of the registry or of the runtime is
    never reported as not found. *)
Theorem not_found_only_for_empty_reads (op : Operation) (s : S)
    (b : option Base) (e : error) :
  rereads op = true ->
  forallb answers_clean (trace_of (run h (perform FormatMapper op) s)) = true ->
  outcome_of (run h (perform FormatMapper op) s) = Returned (b, Some e) ->
  errors_Is (Some e) ErrEntityNotFound = true ->
  is_empty_read <$> last (trace_of (run h (perform FormatMapper op) s))
  = Some true.
Proof.
  intros Hop.
  destruct op as [base|en|en|en|en|en pd|en|en]; try discriminate Hop;
    cbn [perform].
  - destruct (GetProperties_run h en s) as (tr & r & s1 & -> & Hread).
    unfold trace_of, outcome_of. cbn [fst snd].
    intros Hclean [= <- He] His. apply (ReadRun_not_found en tr r Hread Hclean).
    by rewrite <- (errors_Is_Wrap r.2 "entity GetProperties"), He.
  - destruct (SetProperties_run h en s) as (tr & out & s1 & -> & Hrun).
    unfold trace_of, outcome_of. cbn [fst snd]. intros Hclean -> His.
    by eapply MutateRun_not_found; [|apply Hrun|..].
  - destruct (SetConfigs_run h en s) as (tr & out & s1 & -> & Hrun).
    unfold trace_of, outcome_of. cbn [fst snd]. intros Hclean -> His.
    by eapply MutateRun_not_found; [|apply Hrun|..].
  - destruct (PatchEntity_run h en pd s) as (tr & out & s1 & -> & Hrun).
    unfold trace_of, outcome_of. cbn [fst snd]. intros Hclean -> His.
    by eapply MutateRun_not_found; [|apply Hrun|..].
  - destruct (AppendMapper_run h en s) as (tr & out & s1 & -> & Hrun).
    unfold trace_of, outcome_of. cbn [fst snd]. intros Hclean -> His.
    by eapply MapperRun_not_found; [| |apply Hrun|..].
  - destruct (RemoveMapper_run h en s) as (tr & out & s1 & -> & Hrun).
    unfold trace_of, outcome_of. cbn [fst snd]. intros Hclean -> His.
    by eapply MapperRun_not_found; [| |apply Hrun|..].
Qed.

(** ** A mutation is the runtime call followed by a read *)

Lemma run_Do {A : Type} (c : Call) (k : Resp c -> Prog A) (s : S) :
  run h (Do c k) s = prepend [Ev c (h c s).2] (run h (k (h c s).2) (h c s).1).
Proof.
  simpl. destruct (h c s) as [s1 r]. simpl.
  by destruct (run h (k r) s1) as [[tr out] s2].
Qed.

Lemma after_runtime_call (en : Base) (c : Call) (k : Resp c -> Prog Result)
    (label : string) (s s1 : S) (r : Resp c) :
  h c s = (s1, r) ->
  k r = (x <- getEntityFromState en ;;
         let '(base, err) := x in Ret (base, errors_Wrap err label)) ->
  exists tr res s2,
    run h (GetProperties en) s1
    = (tr, Returned (wrap_result "entity GetProperties" res), s2) /\
    run h (Do c k) s = (Ev c r :: tr, Returned (wrap_result label res), s2).
Proof.
  intros Hc Hk. rewrite run_Do, Hc. cbn [fst snd]. rewrite Hk. clear Hc Hk.
  unfold GetProperties. rewrite !run_bind.
  destruct (getEntityFromState_run h en s1) as (tr & [b err] & s2 & -> & _).
  exists tr, (b, err), s2. unfold prepend. simpl. by rewrite !app_nil_r.
Qed.

(** X7: once the runtime call of SetProperties, SetConfigs or
    PatchEntity has succeeded, the operation goes on exactly like a
    GetProperties started right after it: the same calls with the same
    answers, the same snapshot, and the same error under the label of
    the mutation in place of "entity GetProperties". *)
Theorem mutation_then_reads_like_GetProperties (en : Base)
    (patchData : list PatchData) (s s1 : S) :
  (h (RtSetProperties en) s = (s1, None) ->
   exists tr res s2,
     run h (GetProperties en) s1
     = (tr, Returned (wrap_result "entity GetProperties" res), s2) /\
     run h (SetProperties en) s
     = (Ev (RtSetProperties en) None :: tr,
        Returned (wrap_result "set entity properties" res), s2)) /\
  (h (RtSetConfigs en) s = (s1, None) ->
   exists tr res s2,
     run h (GetProperties en) s1
     = (tr, Returned (wrap_result "entity GetProperties" res), s2) /\
     run h (SetConfigs en) s
     = (Ev (RtSetConfigs en) None :: tr,
        Returned (wrap_result "set entity configs" res), s2)) /\
  (h (RtPatchEntity en patchData) s = (s1, None) ->
   exists tr res s2,
     run h (GetProperties en) s1
     = (tr, Returned (wrap_result "entity GetProperties" res), s2) /\
     run h (PatchEntity en patchData) s
     = (Ev (RtPatchEntity en patchData) None :: tr,
        Returned (wrap_result "patch entity properties" res), s2)).
Proof.
  repeat split; intros Hrt.
  - by apply (after_runtime_call en (RtSetProperties en) _ _ s s1 None).
  - by apply (after_runtime_call en (RtSetConfigs en) _ _ s s1 None).
  - by apply (after_runtime_call en (RtPatchEntity en patchData) _ _ s s1 None).
Qed.

(** ** Delete when the runtime hands back no snapshot *)

(** X8: when the runtime teardown answers nil with nil, DeleteEntity
    still runs the three other steps.  If they all succeed it hands
    back neither a snapshot nor an error; if the registry delete fails
    it panics on the nil snapshot at line 150 instead of returning the
    wrapped error; a failure of the search or of the store delete is
    returned wrapped as usual. *)
Theorem delete_without_snapshot (en : Base) (s s1 : S) :
  h (DeleteStateMarchin en) s = (s1, (None, None)) ->
  let x := run h (DeleteEntity FormatMapper en) s in
  (existsb failed (trace_of x) = false ->
   length (trace_of x) = 4 /\ outcome_of x = Returned (None, None)) /\
  (existsb failed (trace_of x) = true -> length (trace_of x) = 4 ->
   outcome_of x = Panicked) /\
  (existsb failed (trace_of x) = true -> length (trace_of x) < 4 ->
   exists e label,
     outcome_of x = Returned (None, Some (Wrap e label)) /\
     delete_labels !! (length (trace_of x) - 1) = Some label).
Proof.
  intros Htd. cbv zeta. unfold DeleteEntity. simpl. rewrite Htd. simpl.
  destruct (h (SearchDeleteByID (ID en)) s1) as [s2 [e|]]; simpl.
  { repeat split; try done. intros _ _. by exists e, "delete entity from es state". }
  destruct (h (DeleteState EntityStateName (ID en)) s2) as [s3 [e|]]; simpl.
  { repeat split; try done. intros _ _. by exists e, "delete entity from state". }
  destruct (h (EtcdDelete _ true) s3) as [s4 [e|]]; simpl.
  - repeat split; try done. intros _ Hlen. unfold trace_of in Hlen. simpl in Hlen. lia.
  - repeat split; try done.
Qed.

(** ** Mapper keys and the registry *)

Lemma append_cancel_l (p a b : string) : p +:+ a = p +:+ b -> a = b.
Proof. induction p as [|c p IH]; simpl; [done|]. intros [=]. auto. Qed.

(** X9: the registry key of a mapper is the prefix followed by the
    [ID] and the [Name] written one after the other without separator.
    Two mappers therefore share a key exactly when the concatenations
    of [ID] and [Name] agree: within one entity only when the names
    agree, across entities also when a longer [ID] takes over the head
    of the other name. *)
Theorem mapper_keys_coincide (en1 en2 : Base) (m1 m2 : Mapper) :
  (mapperKey en1 m1 = mapperKey en2 m2 <->
   ID en1 +:+ Name m1 = ID en2 +:+ Name m2) /\
  (mapperKey en1 m1 = mapperKey en1 m2 <-> Name m1 = Name m2).
Proof.
  unfold mapperKey. split; split.
  - apply append_cancel_l.
  - by intros ->.
  - by intros ?%append_cancel_l%append_cancel_l.
  - by intros ->.
Qed.

Lemma lookup_foldl_put_fresh (en : Base) (ms : list Mapper)
    (reg : gmap string string) (k : string) :
  k ∉ (mapperKey en <$> ms) ->
  foldl (put_mapper en) reg ms !! k = reg !! k.
Proof.
  revert reg. induction ms as [|mm ms IH]; intros reg Hk; [done|].
  rewrite fmap_cons, not_elem_of_cons in Hk. destruct Hk as [Hne Hk].
  simpl. rewrite IH by done. unfold put_mapper. by rewrite lookup_insert_ne.
Qed.

Lemma lookup_foldl_put_last (en : Base) (l1 l2 : list Mapper) (mm : Mapper)
    (reg : gmap string string) :
  Forall (fun m' => Name m' <> Name mm) l2 ->
  foldl (put_mapper en) reg (l1 ++ mm :: l2) !! mapperKey en mm
  = Some (TQLString mm).
Proof.
  intros Hl2. rewrite foldl_app. simpl.
  rewrite lookup_foldl_put_fresh.
  - unfold put_mapper. by rewrite lookup_insert_eq.
  - intros (m' & Hkey & Hin)%list_elem_of_fmap.
    rewrite Forall_forall in Hl2. apply (Hl2 m' Hin).
    symmetry. by apply (mapper_keys_coincide en en mm m').
Qed.

Lemma lookup_foldl_del (en : Base) (ms : list Mapper)
    (reg : gmap string string) (k : string) :
  foldl (del_mapper en) reg ms !! k
  = if decide (k ∈ (mapperKey en <$> ms)) then None else reg !! k.
Proof.
  revert reg. induction ms as [|mm ms IH]; intros reg.
  - rewrite fmap_nil. cbn [foldl].
    destruct (decide (k ∈ [])) as [Hin|_]; [|done]. by apply elem_of_nil in Hin.
  - rewrite fmap_cons. cbn [foldl]. rewrite IH. unfold del_mapper.
    destruct (decide (k ∈ mapperKey en <$> ms)) as [Hin|Hin].
    + rewrite decide_True; [done|]. by apply elem_of_cons; right.
    + destruct (decide (k = mapperKey en mm)) as [->|Hne].
      * rewrite lookup_delete_eq, decide_True; [done|]. by apply elem_of_cons; left.
      * rewrite lookup_delete_ne, decide_False; [done| |done].
        by intros [?|?]%elem_of_cons.
Qed.

Lemma registry_after_read (en : Base) (tr : list Event) (r : Result)
    (reg : gmap string string) :
  ReadRun en tr r -> registry_after tr reg = reg.
Proof. by destruct 1. Qed.

(** A run that got as far as the runtime call made every registry call,
    and nothing after them touches the registry. *)
Lemma MapperRun_reached (en : Base) (ev : option error -> Mapper -> Event)
    (rt : option error -> Event) (label : string) (tr : list Event)
    (out : Outcome Result) :
  (forall err mm, is_runtime_call (ev_call (ev err mm)) = false) ->
  (forall err reg, registry_step reg (rt err) = reg) ->
  MapperRun en ev rt label tr out ->
  never is_runtime_call tr = false ->
  forall reg, registry_after tr reg = registry_after (ev None <$> Mappers en) reg.
Proof.
  intros Hev Hrt [data e | data k mm e Hk | data e | data tr' r Hread].
  - done.
  - change (never is_runtime_call (getEv en (data, None) :: ?l))
      with (never is_runtime_call l).
    rewrite never_app, never_fmap by apply Hev.
    unfold never. simpl. by rewrite Hev.
  - intros _ reg.
    change (registry_after (getEv en (data, None) :: ?l) reg)
      with (registry_after l reg).
    rewrite registry_after_app. unfold registry_after at 1. simpl. apply Hrt.
  - intros _ reg.
    change (registry_after (getEv en (data, None) :: ?l) reg)
      with (registry_after l reg).
    rewrite registry_after_app.
    change (registry_after (rt None :: tr') ?g)
      with (registry_after tr' (registry_step g (rt None))).
    by rewrite Hrt, (registry_after_read en tr' r).
Qed.

(** X10: whenever AppendMapper gets as far as the runtime call, every
    mapper of the list has been written: the registry then holds, under
    the key of each mapper, the rule of the last mapper of the list
    that bears that name, and every key that belongs to no mapper of
    the list is as it was.  This holds also when the runtime call or
    the re-read fails afterwards: nothing is taken back. *)
Theorem appended_rules_are_in_the_registry (en : Base) (s : S)
    (reg : gmap string string) :
  let tr := trace_of (run h (AppendMapper en) s) in
  never is_runtime_call tr = false ->
  (forall l1 mm l2,
     Mappers en = l1 ++ mm :: l2 ->
     Forall (fun m' => Name m' <> Name mm) l2 ->
     registry_after tr reg !! mapperKey en mm = Some (TQLString mm)) /\
  (forall k, k ∉ (mapperKey en <$> Mappers en) ->
             registry_after tr reg !! k = reg !! k).
Proof.
  cbv zeta.
  destruct (AppendMapper_run h en s) as (tr & out & s1 & -> & Hrun).
  unfold trace_of. cbn [fst]. intros Hreached.
  rewrite (MapperRun_reached en (putEv en) (Ev (RtAppendMapper en))
             "append mapper" tr out) by done.
  rewrite registry_after_puts. split.
  - intros l1 mm l2 -> Hl2. by apply lookup_foldl_put_last.
  - intros k Hk. by apply lookup_foldl_put_fresh.
Qed.

(** X11: whenever RemoveMapper gets as far as the runtime call, the key
    of every mapper of the list is gone from the registry and every
    other key is as it was. *)
Theorem removed_rules_are_gone (en : Base) (s : S) (reg : gmap string string) :
  let tr := trace_of (run h (RemoveMapper en) s) in
  never is_runtime_call tr = false ->
  (forall mm, mm ∈ Mappers en -> registry_after tr reg !! mapperKey en mm = None) /\
  (forall k, k ∉ (mapperKey en <$> Mappers en) ->
             registry_after tr reg !! k = reg !! k).
Proof.
  cbv zeta.
  destruct (RemoveMapper_run h en s) as (tr & out & s1 & -> & Hrun).
  unfold trace_of. cbn [fst]. intros Hreached.
  rewrite (MapperRun_reached en (delEv en) (Ev (RtRemoveMapper en))
             "remove mapper" tr out) by done.
  rewrite registry_after_dels. split.
  - intros mm Hmm. rewrite lookup_foldl_del.
    case_decide as Hin; [done|]. destruct Hin. by apply list_elem_of_fmap_2.
  - intros k Hk. rewrite lookup_foldl_del. by case_decide.
Qed.

(** X12: an AppendMapper and a later RemoveMapper of the same entity
    that both get as far as the runtime call leave the registry as it
    was, provided none of the mapper keys was in it before. *)
Theorem remove_undoes_append (en : Base) (s s' : S) (reg : gmap string string) :
  let tra := trace_of (run h (AppendMapper en) s) in
  let trr := trace_of (run h (RemoveMapper en) s') in
  never is_runtime_call tra = false ->
  never is_runtime_call trr = false ->
  (forall mm, mm ∈ Mappers en -> reg !! mapperKey en mm = None) ->
  registry_after trr (registry_after tra reg) = reg.
Proof.
  cbv zeta.
  destruct (AppendMapper_run h en s) as (tra & oa & sa & -> & Ha).
  destruct (RemoveMapper_run h en s') as (trr & or & sr & -> & Hr).
  unfold trace_of. cbn [fst]. intros Hra Hrr Hfresh.
  rewrite (MapperRun_reached en (delEv en) (Ev (RtRemoveMapper en))
             "remove mapper" trr or) by done.
  rewrite (MapperRun_reached en (putEv en) (Ev (RtAppendMapper en))
             "append mapper" tra oa) by done.
  rewrite registry_after_puts, registry_after_dels.
  apply map_eq. intros k. rewrite lookup_foldl_del.
  case_decide as Hin.
  - apply list_elem_of_fmap in Hin as (mm & -> & Hmm). symmetry. by apply Hfresh.
  - by apply lookup_foldl_put_fresh.
Qed.

(** ** The identifier and its random bits *)

Lemma unhex_byte_hex (b : byte) :
  unhex_byte (hex_digit (Byte.to_N b / 16)) (hex_digit (Byte.to_N b mod 16))
  = Some b.
Proof. by destruct b. Qed.

Lemma unhex_hex (bs : bytes) : unhex (hex bs) = Some bs.
Proof.
  induction bs as [|b bs IH]; [done|].
  cbn [hex unhex]. by rewrite unhex_byte_hex, IH.
Qed.

Lemma hex_digit_not_hyphen (n : N) : Ascii.eqb (hex_digit n) "-" = false.
Proof.
  destruct n as [|p]; [done|].
  do 4 (destruct p as [p|p|]; try done).
Qed.

Lemma drop_hyphens_hex (bs : bytes) (rest : string) :
  drop_hyphens (hex bs +:+ rest) = hex bs +:+ drop_hyphens rest.
Proof.
  induction bs as [|b bs IH]; [done|].
  cbn [hex]. change (String ?a (String ?b ?x) +:+ rest)
    with (String a (String b (x +:+ rest))).
  cbn [drop_hyphens]. by rewrite !hex_digit_not_hyphen, IH.
Qed.

Lemma hex_app (a b : bytes) : hex (a ++ b) = hex a +:+ hex b.
Proof.
  induction a as [|x a IH]; [done|].
  change (hex ((x :: a) ++ b))
    with (String (hex_digit (Byte.to_N x / 16))
            (String (hex_digit (Byte.to_N x mod 16)) (hex (a ++ b)))).
  by rewrite IH.
Qed.

Lemma append_empty_r (x : string) : x +:+ "" = x.
Proof.
  induction x as [|c x IH]; [done|].
  change (String c x +:+ "") with (String c (x +:+ "")). by rewrite IH.
Qed.

(** The printed identifier without its hyphens is the print of the
    sixteen bytes. *)
Lemma drop_hyphens_Sprintf (u : list byte) :
  length u = 16 -> drop_hyphens (uuid_Sprintf u) = hex u.
Proof.
  intros Hlen. unfold uuid_Sprintf.
  rewrite <- (append_empty_r (hex (drop 10 u))).
  repeat (rewrite drop_hyphens_hex;
          try change (drop_hyphens ("-" +:+ ?x)) with (drop_hyphens x)).
  change (drop_hyphens "") with "". rewrite append_empty_r, <- !hex_app.
  f_equal.
  destruct u as
    [|u0 [|u1 [|u2 [|u3 [|u4 [|u5 [|u6 [|u7 [|u8 [|u9 [|u10 [|u11
     [|u12 [|u13 [|u14 [|u15 [|? ?]]]]]]]]]]]]]]]]];
    try discriminate Hlen.
  reflexivity.
Qed.

Lemma uuid_parse_Sprintf (u : list byte) :
  length u = 16 -> uuid_parse (uuid_Sprintf u) = Some u.
Proof.
  intros Hlen. unfold uuid_parse.
  by rewrite drop_hyphens_Sprintf, unhex_hex.
Qed.

Lemma update_at_alter (i : nat) (f : byte -> byte) (u : list byte) :
  i < length u -> update_at i f u = Some (alter f i u).
Proof.
  intros Hi. unfold update_at, bytes.
  destruct (u !! i) as [b|] eqn:Hb.
  - apply (f_equal Some).
    trans (alter (fun _ => f b) i u); [apply list_insert_alter|].
    apply list_alter_ext; [|done]. intros x Hx. cbv beta.
    by pose proof (eq_trans (eq_sym Hb) Hx) as [= ->].
  - apply lookup_ge_None in Hb. lia.
Qed.

Lemma length_patched (u : list byte) : length (patched u) = length u.
Proof. unfold patched, bytes. by rewrite !length_alter. Qed.

(** With a working randomness source [uuid] prints the patched buffer. *)
Lemma uuid_run_patched (s s1 : S) (src : bytes) :
  h (RandRead 16) s = (s1, (src, None)) ->
  run h uuid s
  = ([Ev (RandRead 16) (src, None)],
     Returned (uuid_Sprintf (patched (fill (replicate 16 x00) src))), s1).
Proof.
  intros Hrand. unfold uuid. rewrite run_bind, run_call.
  change (length (replicate 16 x00)) with 16. rewrite Hrand.
  cbn [fst snd]. unfold prepend.
  rewrite update_at_alter by (rewrite fill_length; simpl; lia).
  rewrite update_at_alter by (rewrite length_alter, fill_length; simpl; lia).
  reflexivity.
Qed.

(** X13: nothing of the patched buffer is lost in printing.  With a
    working randomness source the identifier [uuid] hands back reads
    back, hyphens dropped and digits decoded, as the sixteen bytes of
    the buffer with the version and variant bits set. *)
Theorem uuid_reads_back (s s1 : S) (src : bytes) :
  h (RandRead 16) s = (s1, (src, None)) ->
  exists id,
    outcome_of (run h uuid s) = Returned id /\
    uuid_parse id = Some (patched (fill (replicate 16 x00) src)).
Proof.
  intros Hrand. rewrite (uuid_run_patched s s1 src Hrand).
  eexists. split; [reflexivity|].
  apply uuid_parse_Sprintf. by rewrite length_patched, fill_length.
Qed.

End More.

Lemma random_bits_patched (u : list byte) : random_bits (patched u) = random_bits u.
Proof.
  unfold random_bits, patched, bytes.
  rewrite (list_alter_alter_ne _ _ _ 8 6) by done.
  rewrite !list_alter_alter_eq.
  apply list_alter_ext.
  - intros b _. simpl. by destruct b.
  - apply list_alter_ext; [|done]. intros b _. simpl. by destruct b.
Qed.

Lemma patched_random_bits (u : list byte) : patched (random_bits u) = patched u.
Proof.
  unfold random_bits, patched, bytes.
  rewrite (list_alter_alter_ne _ _ _ 8 6) by done.
  rewrite !list_alter_alter_eq.
  apply list_alter_ext.
  - intros b _. simpl. by destruct b.
  - apply list_alter_ext; [|done]. intros b _. simpl. by destruct b.
Qed.

(** X14: the identifier is a one-to-one print of the 122 bits that
    [uuid] leaves untouched.  Two buffers of sixteen bytes give the same
    identifier exactly when they agree outside the four version bits of
    byte 6 and the two variant bits of byte 8. *)
Theorem uuid_keeps_random_bits (u v : list byte) :
  length u = 16 -> length v = 16 ->
  uuid_Sprintf (patched u) = uuid_Sprintf (patched v) <->
  random_bits u = random_bits v.
Proof.
  intros Hu Hv. split.
  - intros Hid. apply (f_equal uuid_parse) in Hid.
    rewrite !uuid_parse_Sprintf in Hid by by rewrite length_patched.
    injection Hid as Hid.
    by rewrite <- (random_bits_patched u), Hid, random_bits_patched.
  - intros Hbits.
    by rewrite <- (patched_random_bits u), Hbits, patched_random_bits.
Qed.

(** ** The text of an error in the response *)

Section Responses.

Context {S : Type} (h : Handler S).
Variable FormatMapper : string -> string -> string -> string.
Variable notFoundText alreadyExistedText : string.

Lemma bytes_of_string_app (a b : string) :
  bytes_of_string (a +:+ b) = bytes_of_string a ++ bytes_of_string b.
Proof.
  induction a as [|c a IH]; [done|].
  change (String c a +:+ b) with (String c (a +:+ b)).
  cbn [bytes_of_string]. by rewrite IH.
Qed.

Lemma errResult_Wrap (out : Content) (cause : error) (label : string) :
  Data (errResult notFoundText alreadyExistedText out (Some (Wrap cause label)))
  = bytes_of_string label ++ bytes_of_string ": "
    ++ Data (errResult notFoundText alreadyExistedText out (Some cause)).
Proof. cbn [errResult Data error_Error]. by rewrite !bytes_of_string_app. Qed.

Lemma wrapped_error (label : string) (r : Result) (b : option Base) (e : error) :
  wrap_result label r = (b, Some e) -> exists cause, e = Wrap cause label.
Proof. destruct r as [b' [e'|]]; intros [=]. by eexists. Qed.

Lemma MutateRun_error (en : Base) (rt : option error -> Event) (label : string)
    (tr : list Event) (b : option Base) (e : error) :
  MutateRun en rt label tr (Returned (b, Some e)) ->
  exists cause, e = Wrap cause label.
Proof.
  intros Hrun. remember (Returned (b, Some e)) as o eqn:Ho.
  destruct Hrun as [e' | tr' r Hread].
  - injection Ho as <- <-. by eexists.
  - assert (Hw : wrap_result label r = (b, Some e)) by congruence.
    by apply wrapped_error in Hw.
Qed.

Lemma MapperRun_error (en : Base) (ev : option error -> Mapper -> Event)
    (rt : option error -> Event) (label : string) (tr : list Event)
    (b : option Base) (e : error) :
  MapperRun en ev rt label tr (Returned (b, Some e)) ->
  exists l cause, l ∈ ["get state"; "append mapper"; label] /\ e = Wrap cause l.
Proof.
  intros Hrun. remember (Returned (b, Some e)) as o eqn:Ho.
  destruct Hrun as [d e' | d k mm e' Hk | d e' | d tr' r Hread].
  - injection Ho as <- <-. eexists _, _. split; [|done]. set_solver.
  - injection Ho as <- <-. eexists _, _. split; [|done]. set_solver.
  - injection Ho as <- <-. eexists _, _. split; [|done]. set_solver.
  - assert (Hw : wrap_result label r = (b, Some e)) by congruence.
    apply wrapped_error in Hw as [cause ->].
    eexists _, _. split; [|done]. set_solver.
Qed.

(** X15: every error that an operation other than create hands back
    is wrapped under one of the labels of that operation, and
    [errResult] writes that label, a colon and a blank in front of the
    text of the cause; it leaves the payload alone when there is no
    error and never touches the other fields of the content. *)
Theorem error_text_starts_with_label (op : Operation) (s : S)
    (b : option Base) (e : error) (out : Content) :
  is_create op = false ->
  outcome_of (run h (perform FormatMapper op) s) = Returned (b, Some e) ->
  errResult notFoundText alreadyExistedText out None = out /\
  ContentType (errResult notFoundText alreadyExistedText out (Some e))
  = ContentType out /\
  DataTypeURL (errResult notFoundText alreadyExistedText out (Some e))
  = DataTypeURL out /\
  exists label cause,
    label ∈ labels_of op /\ e = Wrap cause label /\
    Data (errResult notFoundText alreadyExistedText out (Some e))
    = bytes_of_string label ++ bytes_of_string ": "
      ++ Data (errResult notFoundText alreadyExistedText out (Some cause)).
Proof.
  intros Hop Hout. split; [done|]. split; [done|]. split; [done|].
  cut (exists label cause, label ∈ labels_of op /\ e = Wrap cause label).
  { intros (label & cause & Hin & ->). exists label, cause.
    split; [done|]. split; [done|]. apply errResult_Wrap. }
  revert Hout.
  destruct op as [base|en|en|en|en|en pd|en|en]; try discriminate Hop;
    cbn [perform labels_of].
  - destruct (DeleteEntity_steps h FormatMapper en s)
      as (tr & o & s1 & -> & Hrun).
    unfold outcome_of. cbn [fst snd]. intros ->.
    inversion Hrun as [b' e' | b' e' | b' e' | b' e' Htr Ho | b']; subst;
      try (destruct b'; [|discriminate Ho]; injection Ho as <-);
      try match goal with H : Wrap _ _ = e |- _ => destruct H end;
      (eexists _, _; split; [|reflexivity]; unfold delete_labels; set_solver).
  - destruct (GetProperties_run h en s) as (tr & r & s1 & -> & _).
    unfold outcome_of. cbn [fst snd]. intros Hout.
    assert (Hw : wrap_result "entity GetProperties" r = (b, Some e))
      by congruence.
    destruct (wrapped_error _ _ _ _ Hw) as [cause ->].
    eexists _, _. split; [|reflexivity]. set_solver.
  - destruct (SetProperties_run h en s) as (tr & o & s1 & -> & Hrun).
    unfold outcome_of. cbn [fst snd]. intros ->.
    destruct (MutateRun_error _ _ _ _ _ _ Hrun) as [cause ->].
    eexists _, _. split; [|reflexivity]. set_solver.
  - destruct (SetConfigs_run h en s) as (tr & o & s1 & -> & Hrun).
    unfold outcome_of. cbn [fst snd]. intros ->.
    destruct (MutateRun_error _ _ _ _ _ _ Hrun) as [cause ->].
    eexists _, _. split; [|reflexivity]. set_solver.
  - destruct (PatchEntity_run h en pd s) as (tr & o & s1 & -> & Hrun).
    unfold outcome_of. cbn [fst snd]. intros ->.
    destruct (MutateRun_error _ _ _ _ _ _ Hrun) as [cause ->].
    eexists _, _. split; [|reflexivity]. set_solver.
  - destruct (AppendMapper_run h en s) as (tr & o & s1 & -> & Hrun).
    unfold outcome_of. cbn [fst snd]. intros ->.
    destruct (MapperRun_error _ _ _ _ _ _ _ Hrun) as (l & cause & Hl & ->).
    eexists _, _. split; [|reflexivity].
    rewrite !elem_of_cons, elem_of_nil in Hl. rewrite !elem_of_cons. tauto.
  - destruct (RemoveMapper_run h en s) as (tr & o & s1 & -> & Hrun).
    unfold outcome_of. cbn [fst snd]. intros ->.
    destruct (MapperRun_error _ _ _ _ _ _ _ Hrun) as (l & cause & Hl & ->).
    eexists _, _. split; [|reflexivity].
    rewrite !elem_of_cons, elem_of_nil in Hl. rewrite !elem_of_cons. tauto.
Qed.

End Responses.

(** ** What a successful read went through *)

(** X16: GetProperties hands back a snapshot only after a [GetState]
    on the entity's key that gave a value of at least one byte and a
    decoding of exactly that value: the snapshot is the decoder's, it
    comes without error, and these two are the only calls made. *)
Theorem GetProperties_returns_the_decoded_value {S : Type} (h : Handler S)
    (en b : Base) (err : option error) (s : S) :
  outcome_of (run h (GetProperties en) s) = Returned (Some b, err) ->
  err = None /\
  exists item,
    Value item <> [] /\
    trace_of (run h (GetProperties en) s)
    = [Ev (GetState EntityStateName (ID en)) (Some item, None);
       Ev (DecodeBase (Value item)) (Some b, None)].
Proof.
  destruct (GetProperties_run h en s) as (tr & r & s1 & -> & Hread).
  unfold outcome_of, trace_of. cbn [fst snd].
  destruct Hread as [data e | data Hempty | item b' e Hitem | item b' Hitem];
    intros [= <- <-].
  split; [done|]. exists item. split; [|done].
  intros Hnil. simpl in Hitem. by rewrite Hnil in Hitem.
Qed.

Lemma GetProperties_returns_the_decoded_value_witness :
  outcome_of (run (scripted all_good) (GetProperties dev1) tt)
  = Returned (Some dev1, None) /\
  exists item,
    Value item <> [] /\
    trace_of (run (scripted all_good) (GetProperties dev1) tt)
    = [Ev (GetState EntityStateName (ID dev1)) (Some item, None);
       Ev (DecodeBase (Value item)) (Some dev1, None)].
Proof.
  split; [reflexivity|].
  exact (proj2 (GetProperties_returns_the_decoded_value (scripted all_good)
                  dev1 dev1 None tt eq_refl)).
Defined.

(** ** Instances of the further properties *)

Lemma only_the_last_call_fails_witness :
  is_create (OpAppendMapper dev1) = false /\
  exists pre lst,
    trace_of (run (scripted second_rule_refused)
                (perform sampleFormat (OpAppendMapper dev1)) tt)
    = pre ++ [lst] /\
    existsb failed pre = false /\
    ((exists b, outcome_of (run (scripted second_rule_refused)
                              (perform sampleFormat (OpAppendMapper dev1)) tt)
                = Returned (b, None)) <->
     failed lst = false /\ is_empty_read lst = false).
Proof.
  split; [reflexivity|].
  exact (only_the_last_call_fails (scripted second_rule_refused) sampleFormat
           (OpAppendMapper dev1) tt eq_refl).
Defined.

Lemma create_saves_what_it_encodes_witness :
  outcome_of (run (scripted all_good) (CreateEntity anon) tt)
  = Returned (Some (set_ID "00112233-4455-4677-8899-aabbccddeeff" anon), None) /\
  exists pre data,
    trace_of (run (scripted all_good) (CreateEntity anon) tt)
    = pre ++ [Ev (EncodeBase (set_ID "00112233-4455-4677-8899-aabbccddeeff" anon))
                (data, None);
              Ev (SaveState EntityStateName
                    "00112233-4455-4677-8899-aabbccddeeff" data) None;
              Ev (SendMsg {| StateID := "00112233-4455-4677-8899-aabbccddeeff";
                             Operator := "replace" |}) tt].
Proof.
  split; [reflexivity|].
  exact (proj2 (proj2 (proj2
    (create_saves_what_it_encodes (scripted all_good) anon
       (set_ID "00112233-4455-4677-8899-aabbccddeeff" anon) None tt eq_refl)))).
Defined.

Lemma failed_create_wrote_nothing_witness :
  outcome_of (run (scripted empty_store) (CreateEntity dev1) tt)
  = Returned (None, Some ErrEntityNotFound) /\
  never is_runtime_call (trace_of (run (scripted empty_store) (CreateEntity dev1) tt))
  = true.
Proof.
  split; [reflexivity|].
  exact (proj1 (failed_create_wrote_nothing (scripted empty_store) dev1
                  ErrEntityNotFound tt eq_refl)).
Defined.

Lemma not_found_only_for_empty_reads_witness :
  forallb answers_clean
    (trace_of (run (scripted empty_store)
                 (perform sampleFormat (OpSetConfigs dev1)) tt)) = true /\
  is_empty_read <$>
    last (trace_of (run (scripted empty_store)
                      (perform sampleFormat (OpSetConfigs dev1)) tt))
  = Some true.
Proof.
  split; [reflexivity|].
  exact (not_found_only_for_empty_reads (scripted empty_store) sampleFormat
           (OpSetConfigs dev1) tt None
           (Wrap ErrEntityNotFound "set entity configs")
           eq_refl eq_refl eq_refl eq_refl).
Defined.

Lemma mutation_then_reads_like_GetProperties_witness :
  scripted all_good (RtSetProperties dev1) tt = (tt, None) /\
  exists tr res s2,
    run (scripted all_good) (GetProperties dev1) tt
    = (tr, Returned (wrap_result "entity GetProperties" res), s2) /\
    run (scripted all_good) (SetProperties dev1) tt
    = (Ev (RtSetProperties dev1) None :: tr,
       Returned (wrap_result "set entity properties" res), s2).
Proof.
  split; [reflexivity|].
  exact (proj1 (mutation_then_reads_like_GetProperties (scripted all_good)
                  dev1 [] tt tt) eq_refl).
Defined.

Lemma delete_without_snapshot_witness :
  scripted teardown_without_snapshot (DeleteStateMarchin dev1) tt
  = (tt, (None, None)) /\
  outcome_of (run (scripted teardown_without_snapshot)
                (DeleteEntity sampleFormat dev1) tt)
  = Returned (None, None).
Proof.
  split; [reflexivity|].
  exact (proj2 (proj1 (delete_without_snapshot
                         (scripted teardown_without_snapshot) sampleFormat
                         dev1 tt tt eq_refl) eq_refl)).
Defined.

Lemma appended_rules_are_in_the_registry_witness :
  never is_runtime_call
    (trace_of (run (scripted all_good) (AppendMapper dev1) tt)) = false /\
  registry_after (trace_of (run (scripted all_good) (AppendMapper dev1) tt)) ∅
    !! mapperKey dev1 rule2 = Some (TQLString rule2).
Proof.
  split; [reflexivity|].
  apply (proj1 (appended_rules_are_in_the_registry (scripted all_good) dev1 tt
                  ∅ eq_refl) [rule1] rule2 []); [reflexivity|constructor].
Defined.

Lemma removed_rules_are_gone_witness :
  never is_runtime_call
    (trace_of (run (scripted all_good) (RemoveMapper dev1) tt)) = false /\
  registry_after (trace_of (run (scripted all_good) (RemoveMapper dev1) tt))
    {[ mapperKey dev1 rule1 := TQLString rule1 ]}
    !! mapperKey dev1 rule1 = None.
Proof.
  split; [reflexivity|].
  apply (proj1 (removed_rules_are_gone (scripted all_good) dev1 tt
                  {[ mapperKey dev1 rule1 := TQLString rule1 ]} eq_refl)).
  by apply elem_of_cons; left.
Defined.

Lemma remove_undoes_append_witness :
  registry_after (trace_of (run (scripted all_good) (RemoveMapper dev1) tt))
    (registry_after (trace_of (run (scripted all_good) (AppendMapper dev1) tt)) ∅)
  = ∅.
Proof.
  apply (remove_undoes_append (scripted all_good) dev1 tt tt ∅);
    [reflexivity|reflexivity|]. intros mm _. apply lookup_empty.
Defined.

Lemma uuid_reads_back_witness :
  scripted all_good (RandRead 16) tt = (tt, (sixteen, None)) /\
  exists id,
    outcome_of (run (scripted all_good) uuid tt) = Returned id /\
    uuid_parse id = Some (patched (fill (replicate 16 x00) sixteen)).
Proof.
  split; [reflexivity|].
  exact (uuid_reads_back (scripted all_good) tt tt sixteen eq_refl).
Defined.

Lemma uuid_keeps_random_bits_witness :
  length sixteen = 16 /\
  (uuid_Sprintf (patched sixteen) = uuid_Sprintf (patched (replicate 16 xff))
   <-> random_bits sixteen = random_bits (replicate 16 xff)).
Proof.
  split; [reflexivity|].
  exact (uuid_keeps_random_bits sixteen (replicate 16 xff) eq_refl eq_refl).
Defined.

Lemma error_text_starts_with_label_witness :
  outcome_of (run (scripted second_rule_refused)
                (perform sampleFormat (OpDelete dev1)) tt)
  = Returned (None, Some (Wrap (ErrOpaque "search: unavailable")
                            "delete entity from es state")) /\
  exists label cause,
    label ∈ labels_of (OpDelete dev1) /\
    Wrap (ErrOpaque "search: unavailable") "delete entity from es state"
    = Wrap cause label /\
    Data (errResult "not found" "already existed"
            {| Data := []; ContentType := "text/plain"; DataTypeURL := "" |}
            (Some (Wrap (ErrOpaque "search: unavailable")
                     "delete entity from es state")))
    = bytes_of_string label ++ bytes_of_string ": "
      ++ Data (errResult "not found" "already existed"
                 {| Data := []; ContentType := "text/plain"; DataTypeURL := "" |}
                 (Some cause)).
Proof.
  split; [reflexivity|].
  exact (proj2 (proj2 (proj2
    (error_text_starts_with_label (scripted second_rule_refused) sampleFormat
       "not found" "already existed" (OpDelete dev1) tt None
       (Wrap (ErrOpaque "search: unavailable") "delete entity from es state")
       {| Data := []; ContentType := "text/plain"; DataTypeURL := "" |}
       eq_refl eq_refl)))).
Defined.

Lemma operations_make_permitted_calls_witness :
  exists target,
    target = set_ID "00112233-4455-4677-8899-aabbccddeeff" anon /\
    Forall (fun e => permitted sampleFormat (OpCreate anon) target (ev_call e))
      (trace_of (run (scripted all_good) (perform sampleFormat (OpCreate anon)) tt)).
Proof.
  destruct (operations_make_permitted_calls (scripted all_good) sampleFormat
              (OpCreate anon) tt) as (target & _ & Hgen & Hall).
  exists target. split; [|exact Hall].
  destruct (Hgen eq_refl eq_refl) as (id & tr & s1 & Hrun & ->).
  vm_compute in Hrun. injection Hrun as _ <-. reflexivity.
Defined.
